(** * Interview transcript summarizer: the processing hook and the form

    A shallow embedding of the front end's transcript validation and
    asynchronous processing pipeline:

    - [useInterviewProcessor] (frontend/src/hooks/useInterviewProcessor.ts):
      the two state slots [result] and [processingState], the progress
      simulator started with [setInterval], [processInterview] and [reset];
    - [InterviewForm] (components/InterviewForm.tsx): [handleSubmit] and its
      gate on [isLoading], the submit button's [disabled] attribute, the
      debounced validation callback;
    - [Home] (app/page.tsx): which controls are on the page in which state;
    - what the form renders besides (the character count indicator, the
      format tip, the statistics), the progress bar of [LoadingSpinner] and
      the branches and the copy mark of [ResultsDisplay].

    JavaScript runs one callback at a time to completion.  An [async] function
    is therefore cut at its single [await] into the part that runs when it is
    called and the part that runs when the awaited promise settles; timers are
    handles in a registry, and a handle that is still registered may fire
    between any two callbacks.  React applies queued state updates in the
    order they were queued, so a state slot is threaded through the callbacks
    in that order. *)

From Stdlib Require Import Ascii ZArith QArith Lia.
From stdpp Require Import base strings list gmap.

(** ** JavaScript values *)

Module Js.

(** A string is truthy when it is not empty. *)
Definition truthy (s : string) : bool :=
  match s with
  | EmptyString => false
  | String _ _ => true
  end.

(** [x || d] where [x] is a string or [undefined] and [d] a string. *)
Definition or_else (x : option string) (d : string) : string :=
  match x with
  | Some s => if truthy s then s else d
  | None => d
  end.

(** [s.trim()]: white space is removed at both ends.  Characters are
    8-bit here, and white space is tab, line feed, vertical tab, form
    feed, carriage return and space. *)
Fixpoint trimStart (s : string) : string :=
  match s with
  | EmptyString => EmptyString
  | String c rest => if Ascii.is_space c then trimStart rest else s
  end.

Definition trim (s : string) : string :=
  String.rev (trimStart (String.rev (trimStart s))).

(** [s.length] *)
Definition length (s : string) : Z := Z.of_nat (String.length s).

(** What a rejected promise carries, seen through the cast
    [Error & { message?: string }] of the [catch] block: an object whose
    [message] is a string or is missing.  (An [Error] built without a
    message has the empty string as its message.) *)
Record Error := { message : option string }.

End Js.

(** ** Types of lib/types *)

Record ProcessingState := {
  isLoading : bool;
  progress : Z;
  currentTask : string;
  error : option string;
}.

Record InterviewResult := {
  summary : string;
  highlights : list string;
  lowlights : list string;
  key_named_entities : gmap string string;
  processing_time : option Q;
  model : string;
}.

(** The response of the API client, with the fields [processInterview]
    reads. *)
Record InterviewSummaryResponse := {
  resp_summary : string;
  resp_highlights : list string;
  resp_lowlights : list string;
  resp_key_named_entities : gmap string string;
  resp_processing_time : option Q;
  resp_model : string;
}.

Record InterviewTranscriptRequest := {
  req_transcript : string;
  req_model : string;
}.

Record ValidationError := {
  field : string;
  message : string;
}.

(** ** The progress simulator *)

Record ProgressStep := {
  step_progress : Z;
  task : string;
}.

Definition progressSteps : list ProgressStep := [
  {| step_progress := 10; task := "Validating transcript..." |};
  {| step_progress := 25; task := "Preprocessing text..." |};
  {| step_progress := 40; task := "Analyzing content with AI..." |};
  {| step_progress := 60; task := "Extracting highlights and lowlights..." |};
  {| step_progress := 80; task := "Identifying key information..." |};
  {| step_progress := 95; task := "Finalizing results..." |}
].

(** The state updater the interval callback hands to [setProcessingState]:
    [prev => { const nextStep = progressSteps.find(...); ... }]. *)
Definition tickUpdater (prev : ProcessingState) : ProcessingState :=
  match List.find (fun step => (progress prev <? step_progress step)%Z)
                  progressSteps with
  | Some nextStep =>
      {| isLoading := isLoading prev;
         progress := step_progress nextStep;
         currentTask := task nextStep;
         error := error prev |}
  | None => prev
  end.

(** [n] ticks in a row. *)
Fixpoint ticks (n : nat) (s : ProcessingState) : ProcessingState :=
  match n with
  | O => s
  | S n' => ticks n' (tickUpdater s)
  end.

(** ** The hook [useInterviewProcessor] *)

(** A call of [processInterview] suspended at
    [await apiClient.processInterview(request)]: what its continuation
    holds on to. *)
Record Suspended := {
  progressInterval : nat;
  request : InterviewTranscriptRequest;
}.

(** The hook's two state slots, with the part of the environment the hook
    acts on: the registry of interval handles, the calls waiting for the API
    client and what was written with [console.error]. *)
Record Hook := {
  result : option InterviewResult;
  processingState : ProcessingState;
  intervals : gset nat;
  nextHandle : nat;
  awaiting : list Suspended;
  consoleErrors : list Js.Error;
}.

(** How the API client's promise settles. *)
Inductive Settled :=
| Fulfilled (response : InterviewSummaryResponse)
| Rejected (reason : Js.Error).

(** How the promise returned by an [async] function settles. *)
Inductive Completion :=
| Resolved
| Threw (reason : Js.Error).

Definition initialProcessingState : ProcessingState :=
  {| isLoading := false; progress := 0; currentTask := ""; error := None |}.

Definition initialHook : Hook :=
  {| result := None;
     processingState := initialProcessingState;
     intervals := ∅;
     nextHandle := 0;
     awaiting := [];
     consoleErrors := [] |}.

Definition setResult (r : option InterviewResult) (h : Hook) : Hook :=
  {| result := r;
     processingState := processingState h;
     intervals := intervals h;
     nextHandle := nextHandle h;
     awaiting := awaiting h;
     consoleErrors := consoleErrors h |}.

(** [setProcessingState] with an updater function; with a plain value [v]
    the updater is [fun _ => v]. *)
Definition setProcessingState (f : ProcessingState → ProcessingState)
    (h : Hook) : Hook :=
  {| result := result h;
     processingState := f (processingState h);
     intervals := intervals h;
     nextHandle := nextHandle h;
     awaiting := awaiting h;
     consoleErrors := consoleErrors h |}.

(** [setInterval(callback, 1000)]: a fresh handle is registered.  Every
    interval of this program has the same callback, so the registry keeps
    the handles only. *)
Definition setInterval (h : Hook) : nat * Hook :=
  (nextHandle h,
   {| result := result h;
      processingState := processingState h;
      intervals := {[nextHandle h]} ∪ intervals h;
      nextHandle := S (nextHandle h);
      awaiting := awaiting h;
      consoleErrors := consoleErrors h |}).

Definition clearInterval (handle : nat) (h : Hook) : Hook :=
  {| result := result h;
     processingState := processingState h;
     intervals := intervals h ∖ {[handle]};
     nextHandle := nextHandle h;
     awaiting := awaiting h;
     consoleErrors := consoleErrors h |}.

(** The [await]: the continuation is parked until the client settles. *)
Definition suspend (k : Suspended) (h : Hook) : Hook :=
  {| result := result h;
     processingState := processingState h;
     intervals := intervals h;
     nextHandle := nextHandle h;
     awaiting := awaiting h ++ [k];
     consoleErrors := consoleErrors h |}.

Definition console_error (e : Js.Error) (h : Hook) : Hook :=
  {| result := result h;
     processingState := processingState h;
     intervals := intervals h;
     nextHandle := nextHandle h;
     awaiting := awaiting h;
     consoleErrors := consoleErrors h ++ [e] |}.

(** The interval callback: it runs only while its handle is registered. *)
Definition intervalFires (handle : nat) (h : Hook) : Hook :=
  if decide (handle ∈ intervals h)
  then setProcessingState tickUpdater h
  else h.

Definition defaultModel : string := "anthropic/claude-3.5-sonnet".

(** The request built at lines 64-67. *)
Definition buildRequest (transcript : string) (model : option string)
    : InterviewTranscriptRequest :=
  {| req_transcript := transcript;
     req_model := Js.or_else model defaultModel |}.

Definition submittingState : ProcessingState :=
  {| isLoading := true;
     progress := 0;
     currentTask := "Validating transcript...";
     error := None |}.

Definition completeState : ProcessingState :=
  {| isLoading := false;
     progress := 100;
     currentTask := "Complete";
     error := None |}.

Definition failureState (e : Js.Error) : ProcessingState :=
  {| isLoading := false;
     progress := 0;
     currentTask := "";
     error := Some (Js.or_else (Js.message e) "An unexpected error occurred") |}.

(** [processInterview], from the call to the [await] (lines 28-70). *)
Definition processInterview_call (transcript : string) (model : option string)
    (h : Hook) : Hook :=
  let h := setResult None h in
  let h := setProcessingState (fun _ => submittingState) h in
  let '(progressInterval, h) := setInterval h in
  let request := buildRequest transcript model in
  suspend {| progressInterval := progressInterval; request := request |} h.

(** The conversion at lines 76-83. *)
Definition toInterviewResult (response : InterviewSummaryResponse)
    : InterviewResult :=
  {| summary := resp_summary response;
     highlights := resp_highlights response;
     lowlights := resp_lowlights response;
     key_named_entities := resp_key_named_entities response;
     processing_time := resp_processing_time response;
     model := resp_model response |}.

(** The rest of the [try] block once the awaited promise has settled
    (lines 70-92).  A rejection makes the [await] throw: nothing of the
    block runs and the reason is handed to the [catch]. *)
Definition tryAfterAwait (k : Suspended) (s : Settled) (h : Hook)
    : Hook * option Js.Error :=
  match s with
  | Rejected reason => (h, Some reason)
  | Fulfilled response =>
      let h := clearInterval (progressInterval k) h in
      let interviewResult := toInterviewResult response in
      let h := setResult (Some interviewResult) h in
      let h := setProcessingState (fun _ => completeState) h in
      (h, None)
  end.

(** The [catch] block (lines 94-107).  The interval handle is a [const] of
    the [try] block and is not in scope here: the block sets the state and
    logs, and returns normally. *)
Definition catchBlock (reason : Js.Error) (h : Hook) : Hook * Completion :=
  let h := setProcessingState (fun _ => failureState reason) h in
  let h := console_error reason h in
  (h, Resolved).

(** [processInterview], from the [await] to the end. *)
Definition processInterview_resume (k : Suspended) (s : Settled) (h : Hook)
    : Hook * Completion :=
  match tryAfterAwait k s h with
  | (h, None) => (h, Resolved)
  | (h, Some reason) => catchBlock reason h
  end.

(** [reset] (lines 110-118). *)
Definition reset (h : Hook) : Hook :=
  let h := setResult None h in
  setProcessingState (fun _ => initialProcessingState) h.

(** ** lib/utils: the validator and [debounce] *)

(** Modelled from the spec: the two length thresholds consumed by the
    validator (section 6), in characters. *)
Definition MIN_LENGTH : Z := 50.
Definition MAX_LENGTH : Z := 50000.

(** The finding the form itself reports for an empty transcript (line 36),
    which is also the validator's first finding. *)
Definition requiredFinding : ValidationError :=
  {| field := "transcript"; message := "Transcript is required" |}.

(** Modelled from the spec: the test of the validator's first rule, "empty
    or whitespace-only text".  The empty text passes it. *)
Fixpoint whitespaceOnly (s : string) : bool :=
  match s with
  | EmptyString => true
  | String c rest => Ascii.is_space c && whitespaceOnly rest
  end.

(** The text made of [n] times the character [c]. *)
Definition stringOf (n : N) (c : ascii) : string :=
  N.iter n (String c) EmptyString.

Section Validator.

(** The texts of the two length findings.  The specification names the
    findings ("too short", "too long") and not their wording. *)
Variables tooShortMessage tooLongMessage : string.

Definition tooShortFinding : ValidationError :=
  {| field := "transcript"; message := tooShortMessage |}.

Definition tooLongFinding : ValidationError :=
  {| field := "transcript"; message := tooLongMessage |}.

(** Modelled from the spec: [validateTranscript] of lib/utils, which is
    imported by the form and whose source is not available.  Section 4.1:
    three rules, all checked, none cutting the others short: empty or
    whitespace-only text; length below 50; length above 50,000. *)
Definition validateTranscript (text : string) : list ValidationError :=
  (if whitespaceOnly text then [requiredFinding] else [])
  ++ (if (Js.length text <? MIN_LENGTH)%Z then [tooShortFinding] else [])
  ++ (if (MAX_LENGTH <? Js.length text)%Z then [tooLongFinding] else []).

End Validator.

Module Debounce.
Section Debounce.

Context {A S : Type}.

(** The wrapped function, acting on a state [S], and the delay. *)
Variable func : A → S → S.
Variable wait : Z.

(** The single slot of the debounced function: the pending delayed
    invocation, with the time it is due and the argument it will pass. *)
Definition Slot : Type := option (Z * A).

(** Modelled from the spec: the delayed task of [debounce] (lib/utils,
    whose source is not available).  Time passes until [now]: a pending
    invocation that is due runs, once, and the slot is free again. *)
Definition elapse (now : Z) (st : Slot * S) : Slot * S :=
  match st.1 with
  | Some (due, a) =>
      if (due <=? now)%Z then (None, func a st.2) else st
  | None => st
  end.

(** Modelled from the spec: the function returned by [debounce] (lib/utils,
    whose source is not available).  Section 4.2: a pending invocation is
    cancelled and rescheduled whenever a new call arrives before the delay
    elapses; the invocation that runs is the one of the last call
    (trailing edge).  A call at time [now] replaces the slot by an
    invocation due at [now + wait]. *)
Definition call (now : Z) (a : A) (st : Slot * S) : Slot * S :=
  let st := elapse now st in
  (Some (now + wait, a)%Z, st.2).

(** A series of calls, each with the time it arrives at. *)
Definition calls (cs : list (Z * A)) (st : Slot * S) : Slot * S :=
  foldl (fun st c => call c.1 c.2 st) st cs.

End Debounce.
End Debounce.

(** A series of calls in which every call arrives less than [wait] after the
    one before it, and not before it. *)
Fixpoint rapid {A} (wait : Z) (last : Z) (cs : list (Z * A)) : Prop :=
  match cs with
  | [] => True
  | (now, _) :: cs' => (last ≤ now < last + wait)%Z ∧ rapid wait now cs'
  end.

(** ** The component [InterviewForm] *)

Definition MODELS : list (string * string) := [
  ("anthropic/claude-3.5-sonnet", "Claude 3.5 Sonnet (Recommended)");
  ("openai/gpt-4o", "GPT-4o");
  ("openai/gpt-4o-mini", "GPT-4o Mini")
].

(** The component's five state slots.  [validatorRuns] is not a state of the
    component: it records, in order, the texts the validator was run on. *)
Record Form := {
  transcript : string;
  selectedModel : string;
  validationErrors : list ValidationError;
  isValidating : bool;
  hasInteracted : bool;
  validatorRuns : list string;
}.

Definition initialForm : Form :=
  {| transcript := "";
     selectedModel := "anthropic/claude-3.5-sonnet";
     validationErrors := [];
     isValidating := false;
     hasInteracted := false;
     validatorRuns := [] |}.

Definition setTranscript (v : string) (f : Form) : Form :=
  {| transcript := v;
     selectedModel := selectedModel f;
     validationErrors := validationErrors f;
     isValidating := isValidating f;
     hasInteracted := hasInteracted f;
     validatorRuns := validatorRuns f |}.

Definition setSelectedModel (v : string) (f : Form) : Form :=
  {| transcript := transcript f;
     selectedModel := v;
     validationErrors := validationErrors f;
     isValidating := isValidating f;
     hasInteracted := hasInteracted f;
     validatorRuns := validatorRuns f |}.

Definition setValidationErrors (v : list ValidationError) (f : Form) : Form :=
  {| transcript := transcript f;
     selectedModel := selectedModel f;
     validationErrors := v;
     isValidating := isValidating f;
     hasInteracted := hasInteracted f;
     validatorRuns := validatorRuns f |}.

Definition setIsValidating (v : bool) (f : Form) : Form :=
  {| transcript := transcript f;
     selectedModel := selectedModel f;
     validationErrors := validationErrors f;
     isValidating := v;
     hasInteracted := hasInteracted f;
     validatorRuns := validatorRuns f |}.

Definition setHasInteracted (v : bool) (f : Form) : Form :=
  {| transcript := transcript f;
     selectedModel := selectedModel f;
     validationErrors := validationErrors f;
     isValidating := isValidating f;
     hasInteracted := v;
     validatorRuns := validatorRuns f |}.

Section InterviewForm.

(** [validateTranscript], imported from lib/utils. *)
Variable validate : string → list ValidationError.

(** One execution of the validator, recorded. *)
Definition runValidator (text : string) (f : Form)
    : list ValidationError * Form :=
  (validate text,
   {| transcript := transcript f;
      selectedModel := selectedModel f;
      validationErrors := validationErrors f;
      isValidating := isValidating f;
      hasInteracted := hasInteracted f;
      validatorRuns := validatorRuns f ++ [text] |}).

(** The function handed to [debounce] (lines 22-27). *)
Definition validateCallback (text : string) (f : Form) : Form :=
  let f := setIsValidating true f in
  let '(errors, f) := runValidator text f in
  let f := setValidationErrors errors f in
  setIsValidating false f.

(** [debouncedValidate = debounce(validateCallback, 300)]: a call at time
    [now]. *)
Definition debouncedValidate (now : Z) (text : string)
    (st : Debounce.Slot * Form) : Debounce.Slot * Form :=
  Debounce.call validateCallback 300 now text st.

(** [debouncedValidate] called again and again: each call with the time it
    is made at and its text. *)
Definition debouncedValidateAll (cs : list (Z * string))
    (st : Debounce.Slot * Form) : Debounce.Slot * Form :=
  foldl (fun st c => debouncedValidate c.1 c.2 st) st cs.

(** The effect of lines 32-38, run at time [now] after a render in which
    [transcript] or [hasInteracted] has changed. *)
Definition validationEffect (now : Z) (st : Debounce.Slot * Form)
    : Debounce.Slot * Form :=
  let f := st.2 in
  if hasInteracted f && Js.truthy (transcript f) then
    debouncedValidate now (transcript f) st
  else if hasInteracted f && negb (Js.truthy (transcript f)) then
    (st.1, setValidationErrors [requiredFinding] f)
  else st.

Definition handleTranscriptChange (value : string) (f : Form) : Form :=
  let f := setTranscript value f in
  if negb (hasInteracted f) then setHasInteracted true f else f.

(** [handleSubmit] (lines 49-68), with the [isLoading] of the render the
    handler belongs to.  The second component is the call of [onSubmit]
    the handler makes, if it makes one, with its two arguments. *)
Definition handleSubmit (isLoading : bool) (f : Form)
    : Form * option (string * string) :=
  let f := if negb (hasInteracted f) then setHasInteracted true f else f in
  let '(errors, f) := runValidator (transcript f) f in
  let f := setValidationErrors errors f in
  if (length errors =? 0)%nat && negb isLoading
  then (f, Some (transcript f, selectedModel f))
  else (f, None).

Definition handleClear (f : Form) : Form :=
  let f := setTranscript "" f in
  let f := setValidationErrors [] f in
  setHasInteracted false f.

Definition isFormValid (f : Form) : bool :=
  (length (validationErrors f) =? 0)%nat
  && (0 <? Js.length (Js.trim (transcript f)))%Z.

(** The [disabled] attribute of the submit button (line 236). *)
Definition submitDisabled (isLoading : bool) (f : Form) : bool :=
  negb (isFormValid f) || isLoading || isValidating f.

(** The [disabled] attribute of the Clear button (line 261). *)
Definition clearDisabled (isLoading : bool) (f : Form) : bool :=
  isLoading || (Js.length (transcript f) =? 0)%Z.

End InterviewForm.

(** ** Interval callbacks in a row *)

(** The intervals with the given handles fire one after the other. *)
Definition fireAll (handles : list nat) (h : Hook) : Hook :=
  foldl (fun h handle => intervalFires handle h) h handles.

(** The continuation a call of [processInterview] parks at its [await]
    when it is made in state [h]. *)
Definition suspendedBy (transcript : string) (model : option string)
    (h : Hook) : Suspended :=
  {| progressInterval := nextHandle h;
     request := buildRequest transcript model |}.

(** ** The page [Home] *)

Module Home.

(** What can happen to the page: the user acts on a control, an interval
    fires, the API client settles the [i]-th call waiting for it. *)
Inductive Event :=
| SubmitForm
| ChangeTranscript (value : string)
| SelectModel (value : string)
| ClickClear
| ClickReset
| IntervalFires (handle : nat)
| ClientSettles (i : nat) (s : Settled).

Record Page := {
  hook : Hook;
  form : Form;
  debounceSlot : Debounce.Slot (A := string);
}.

Definition initialPage : Page :=
  {| hook := initialHook; form := initialForm; debounceSlot := None |}.

(** [error] as a condition: a string that is not empty. *)
Definition errorShown (h : Hook) : bool :=
  match error (processingState h) with
  | Some e => Js.truthy e
  | None => false
  end.

(** The button "Process Another Interview", whose [onClick] is [reset],
    is rendered under [!isLoading && (result || error)]. *)
Definition resetShown (h : Hook) : bool :=
  negb (isLoading (processingState h))
  && (bool_decide (is_Some (result h)) || errorShown h).

(** The continuation at position [i] leaves the waiting list. *)
Definition wake (i : nat) (h : Hook) : Hook :=
  {| result := result h;
     processingState := processingState h;
     intervals := intervals h;
     nextHandle := nextHandle h;
     awaiting := delete i (awaiting h);
     consoleErrors := consoleErrors h |}.

Section Step.

Variable validate : string → list ValidationError.

(** After a render the validation effect runs if one of its
    dependencies [transcript], [hasInteracted] has changed. *)
Definition afterRender (now : Z) (old : Form)
    (st : Debounce.Slot * Form) : Debounce.Slot * Form :=
  if decide (transcript old = transcript st.2
             ∧ hasInteracted old = hasInteracted st.2)
  then st
  else validationEffect validate now st.

(** The handler of an event, run at time [now].  A control that is
    disabled or not rendered does nothing; the form's submit event
    always reaches [handleSubmit], whose [isLoading] is the hook's. *)
Definition handle (now : Z) (ev : Event) (p : Page) : Page :=
  let loading := isLoading (processingState (hook p)) in
  match ev with
  | SubmitForm =>
      let '(f, submitted) := handleSubmit validate loading (form p) in
      let h :=
        match submitted with
        | Some (transcript, model) =>
            processInterview_call transcript (Some model) (hook p)
        | None => hook p
        end in
      let st := afterRender now (form p) (debounceSlot p, f) in
      {| hook := h; form := st.2; debounceSlot := st.1 |}
  | ChangeTranscript value =>
      if loading then p else
      let f := handleTranscriptChange value (form p) in
      let st := afterRender now (form p) (debounceSlot p, f) in
      {| hook := hook p; form := st.2; debounceSlot := st.1 |}
  | SelectModel value =>
      if loading then p else
      {| hook := hook p;
         form := setSelectedModel value (form p);
         debounceSlot := debounceSlot p |}
  | ClickClear =>
      if clearDisabled loading (form p) then p else
      let f := handleClear (form p) in
      let st := afterRender now (form p) (debounceSlot p, f) in
      {| hook := hook p; form := st.2; debounceSlot := st.1 |}
  | ClickReset =>
      if resetShown (hook p)
      then {| hook := reset (hook p);
              form := form p;
              debounceSlot := debounceSlot p |}
      else p
  | IntervalFires handle =>
      {| hook := intervalFires handle (hook p);
         form := form p;
         debounceSlot := debounceSlot p |}
  | ClientSettles i s =>
      match awaiting (hook p) !! i with
      | Some k =>
          {| hook := (processInterview_resume k s (wake i (hook p))).1;
             form := form p;
             debounceSlot := debounceSlot p |}
      | None => p
      end
  end.

(** One event at time [now]: a debounced validation that is due runs
    first. *)
Definition step (p : Page) (timed : Z * Event) : Page :=
  let st :=
    Debounce.elapse (validateCallback validate) timed.1
                    (debounceSlot p, form p) in
  handle timed.1 timed.2
         {| hook := hook p; form := st.2; debounceSlot := st.1 |}.

Definition run (trace : list (Z * Event)) (p : Page) : Page :=
  foldl step p trace.

End Step.

End Home.

(** ** Sample data for the scenarios *)

Definition sampleTranscript : string :=
  "00:00:10 intro hello, thank you for joining us this morning".

Definition sampleResponse : InterviewSummaryResponse :=
  {| resp_summary := "ok";
     resp_highlights := ["a"];
     resp_lowlights := [];
     resp_key_named_entities := {["name" := "Jane"]};
     resp_processing_time := None;
     resp_model := "m" |}.

Definition sampleValidate : string → list ValidationError :=
  validateTranscript "too short" "too long".

Definition rateLimited : Js.Error := {| Js.message := Some "rate limited" |}.

(** ** Invariants of the page *)

(** At most one call waits for the API client, and while one waits the
    processing state is loading. *)
Definition singleFlight (h : Hook) : Prop :=
  (length (awaiting h) ≤ 1)%nat
  ∧ (awaiting h = [] ∨ isLoading (processingState h) = true).

(** Progress is a percentage. *)
Definition progressInRange (s : ProcessingState) : Prop :=
  (0 ≤ progress s ≤ 100)%Z.

(** ** What [InterviewForm] renders *)

(** [showValidationErrors] (line 77). *)
Definition showValidationErrors (f : Form) : bool :=
  hasInteracted f && (0 <? length (validationErrors f))%nat.

(** The text of the character count indicator (lines 173-175). *)
Definition countLabel (transcript : string) : string :=
  if (50000 <? Js.length transcript)%Z then "Too long"
  else if (45000 <? Js.length transcript)%Z then "Almost full"
  else if (Js.length transcript <? 50)%Z then "Too short"
  else "Good".

(** The colours of the indicator (lines 167-171). *)
Inductive Tone := Red | Yellow | Gray.

Definition countTone (transcript : string) : Tone :=
  if (45000 <? Js.length transcript)%Z then Red
  else if (40000 <? Js.length transcript)%Z then Yellow
  else Gray.

(** [s.includes(c)] for a one-character string [c]. *)
Fixpoint includes (c : ascii) (s : string) : bool :=
  match s with
  | EmptyString => false
  | String c' rest => bool_decide (c' = c) || includes c rest
  end.

(** The condition of the format tip (line 194). *)
Definition formatTipShown (transcript : string) : bool :=
  (0 <? Js.length transcript)%Z && negb (includes ":" transcript).

(** The condition of the statistics panel (line 274). *)
Definition statsShown (transcript : string) : bool :=
  (0 <? Js.length transcript)%Z.

(** [s.split('\n')]: the pieces between line feeds; the empty string has
    one piece, which is empty. *)
Fixpoint splitLines (s : string) : list string :=
  match s with
  | EmptyString => [EmptyString]
  | String c rest =>
      if bool_decide (c = "010"%char) then EmptyString :: splitLines rest
      else match splitLines rest with
           | piece :: pieces => String c piece :: pieces
           | [] => [String c EmptyString]
           end
  end.

(** The statistic "Lines" (line 279). *)
Definition lineCount (transcript : string) : nat :=
  length (List.filter (fun line => Js.truthy (Js.trim line))
                      (splitLines transcript)).

(** [s.split(/\s+/)]: the pieces between maximal runs of white space (the
    white space of [Js.trim]).  [cur] is the piece being read, in reverse;
    [gap] tells that the last character read was white space.  A string
    that starts (ends) with white space has an empty first (last) piece,
    and the empty string has one piece, which is empty. *)
Fixpoint splitSpacesGo (gap : bool) (cur : string) (s : string)
    : list string :=
  match s with
  | EmptyString => [String.rev cur]
  | String c rest =>
      if Ascii.is_space c then
        if gap then splitSpacesGo true cur rest
        else String.rev cur :: splitSpacesGo true EmptyString rest
      else splitSpacesGo false (String c cur) rest
  end.

Definition splitSpaces (s : string) : list string :=
  splitSpacesGo false EmptyString s.

(** The statistic "Words" (line 285). *)
Definition wordCount (transcript : string) : nat :=
  length (splitSpaces (Js.trim transcript)).

(** The last character of [s] is white space; [prev] answers for the empty
    string. *)
Fixpoint endsWithSpace (prev : bool) (s : string) : bool :=
  match s with
  | EmptyString => prev
  | String c rest => endsWithSpace (Ascii.is_space c) rest
  end.

(** [\d] *)
Definition isDigit (c : ascii) : bool :=
  match Ascii.is_nat c with
  | Some _ => true
  | None => false
  end.

(** The pattern [\d{2}:\d{2}:\d{2}] matches at the start of [s]. *)
Definition timestampAt (s : string) : bool :=
  match s with
  | String d1 (String d2 (String c1 (String d3 (String d4
      (String c2 (String d5 (String d6 _))))))) =>
      isDigit d1 && isDigit d2 && bool_decide (c1 = ":"%char)
      && isDigit d3 && isDigit d4 && bool_decide (c2 = ":"%char)
      && isDigit d5 && isDigit d6
  | _ => false
  end.

(** [(s.match(/\d{2}:\d{2}:\d{2}/g) || []).length]: the matches are
    looked for from left to right, each search starting where the match
    before ended.  [skip] is the number of characters of the last match
    still to be passed. *)
Fixpoint timestampCountGo (skip : nat) (s : string) : nat :=
  match s with
  | EmptyString => 0
  | String c rest =>
      match skip with
      | S skip' => timestampCountGo skip' rest
      | O =>
          if timestampAt s then S (timestampCountGo 7 rest)
          else timestampCountGo 0 rest
      end
  end.

(** The statistic "Timestamps" (line 291). *)
Definition timestampCount (transcript : string) : nat :=
  timestampCountGo 0 transcript.

(** ** The component [LoadingSpinner] *)

(** The width of the progress bar, in percent (line 39):
    [Math.min(100, Math.max(0, progress))]. *)
Definition barWidth (progress : Z) : Z :=
  Z.min 100 (Z.max 0 progress).

(** ** The component [ResultsDisplay] *)

(** What the component returns (lines 40-66): nothing, the panel
    "Processing Failed" with the error, or the summary of the result. *)
Inductive Rendered :=
| Nothing
| FailurePanel (error : string)
| SummaryPanel (result : InterviewResult).

Definition resultsDisplay (result : option InterviewResult)
    (isLoading : bool) (error : option string) : Rendered :=
  if isLoading then Nothing
  else match error with
       | Some (String c e) => FailurePanel (String c e)
       | Some EmptyString | None =>
           match result with
           | None => Nothing
           | Some r => SummaryPanel r
           end
       end.

(** The state slot [copiedSection], with the timeouts started by
    [handleCopy] that have not fired yet: the times they are due at. *)
Record Copied := {
  copiedSection : option string;
  clearTimeouts : list Z;
}.

(** [handleCopy] (lines 10-16) from the point where [copyToClipboard] has
    answered [success], at time [now]. *)
Definition handleCopy (success : bool) (now : Z) (section : string)
    (st : Copied) : Copied :=
  if success then
    {| copiedSection := Some section;
       clearTimeouts := clearTimeouts st ++ [(now + 2000)%Z] |}
  else st.

(** Time passes until [now]: every timeout that is due runs
    [setCopiedSection(null)]. *)
Definition copiedAt (now : Z) (st : Copied) : Copied :=
  if forallb (fun due => (now <? due)%Z) (clearTimeouts st) then st
  else {| copiedSection := None;
          clearTimeouts :=
            List.filter (fun due => (now <? due)%Z) (clearTimeouts st) |}.

(** ** What [Home] renders *)

(** The three sections of the page (lines 39, 47 and 89 of app/page.tsx),
    under the hook's [isLoading], [result] and [error]. *)
Definition spinnerShown (h : Hook) : bool :=
  isLoading (processingState h).

Definition resultsShown (h : Hook) : bool :=
  negb (isLoading (processingState h))
  && (bool_decide (is_Some (result h)) || Home.errorShown h).

Definition helpShown (h : Hook) : bool :=
  negb (isLoading (processingState h))
  && negb (bool_decide (is_Some (result h)))
  && negb (Home.errorShown h).

(** What [ResultsDisplay] returns with the props the page gives it. *)
Definition resultsSection (h : Hook) : Rendered :=
  resultsDisplay (result h) (isLoading (processingState h))
                 (error (processingState h)).

(** ** Further invariants of the page *)

(** The state of the progress display while a call is made: at the start,
    or on a step of the table. *)
Definition onProgressTable (s : ProcessingState) : Prop :=
  (progress s = 0%Z ∧ currentTask s = "Validating transcript...")
  ∨ ∃ step, step ∈ progressSteps
            ∧ progress s = step_progress step ∧ currentTask s = task step.

(** How the hook's slots go together. *)
Record Coherent (h : Hook) : Prop := {
  coherent_loading :
    isLoading (processingState h) = true ↔ awaiting h ≠ [];
  coherent_one : (length (awaiting h) ≤ 1)%nat;
  coherent_busy :
    isLoading (processingState h) = true →
    result h = None ∧ error (processingState h) = None
    ∧ onProgressTable (processingState h);
  coherent_result :
    is_Some (result h) → processingState h = completeState;
  coherent_error :
    ∀ e, error (processingState h) = Some e →
         Js.truthy e = true ∧ result h = None;
}.

(** Every interval that is registered belongs to a call that waits or to a
    call that was rejected. *)
Record Accounted (h : Hook) : Prop := {
  accounted_fresh :
    ∀ handle, handle ∈ intervals h → (handle < nextHandle h)%nat;
  accounted_waiting :
    ∀ k, k ∈ awaiting h → progressInterval k ∈ intervals h;
  accounted_size :
    size (intervals h) = (length (consoleErrors h) + length (awaiting h))%nat;
}.

(** * Properties *)

(** ** The progress simulator *)

Section Find.

Context {A : Type} (P : A → bool).

(** [find] returns the first element that satisfies the test. *)
Lemma find_first (l : list A) (x : A) :
  List.find P l = Some x →
  ∃ l1 l2, l = l1 ++ x :: l2 ∧ Forall (fun y => P y = false) l1 ∧ P x = true.
Proof.
  induction l as [|y l IH]; simpl; [discriminate|].
  destruct (P y) eqn:Hy.
  - intros [= ->]. exists [], l. by repeat split.
  - intros Hfind. destruct (IH Hfind) as (l1 & l2 & -> & Hall & Hx).
    exists (y :: l1), l2. repeat split; [|done]. by constructor.
Qed.

Lemma find_none (l : list A) :
  List.find P l = None → Forall (fun y => P y = false) l.
Proof.
  induction l as [|y l IH]; simpl; [constructor|].
  destruct (P y) eqn:Hy; [discriminate|].
  intros Hfind. constructor; auto.
Qed.

End Find.

Lemma progressSteps_bound (step : ProgressStep) :
  step ∈ progressSteps → (10 ≤ step_progress step ≤ 95)%Z.
Proof.
  unfold progressSteps. rewrite !elem_of_cons, elem_of_nil.
  intros H. repeat (destruct H as [-> | H]; [simpl; lia|]). done.
Qed.

Lemma tickUpdater_isLoading (s : ProcessingState) :
  isLoading (tickUpdater s) = isLoading s.
Proof. unfold tickUpdater. by destruct (List.find _ _). Qed.

Lemma tickUpdater_error (s : ProcessingState) :
  error (tickUpdater s) = error s.
Proof. unfold tickUpdater. by destruct (List.find _ _). Qed.

Lemma tickUpdater_progress (s : ProcessingState) :
  (progress s ≤ progress (tickUpdater s) ≤ Z.max (progress s) 95)%Z.
Proof.
  unfold tickUpdater.
  destruct (List.find _ _) as [step|] eqn:Hfind; simpl; [|lia].
  apply find_first in Hfind as (l1 & l2 & Hsteps & _ & Hlt).
  assert (step ∈ progressSteps) as Hin.
  { rewrite Hsteps. apply elem_of_app. right. by left. }
  apply progressSteps_bound in Hin. lia.
Qed.

Lemma ticks_isLoading (n : nat) (s : ProcessingState) :
  isLoading (ticks n s) = isLoading s.
Proof.
  revert s. induction n as [|n IH]; intros s; simpl; [done|].
  by rewrite IH, tickUpdater_isLoading.
Qed.

Lemma ticks_error (n : nat) (s : ProcessingState) :
  error (ticks n s) = error s.
Proof.
  revert s. induction n as [|n IH]; intros s; simpl; [done|].
  by rewrite IH, tickUpdater_error.
Qed.

Lemma ticks_progress (n : nat) (s : ProcessingState) :
  (progress s ≤ progress (ticks n s) ≤ Z.max (progress s) 95)%Z.
Proof.
  revert s. induction n as [|n IH]; intros s; simpl; [lia|].
  specialize (IH (tickUpdater s)). pose proof (tickUpdater_progress s). lia.
Qed.

Lemma ticks_S (n : nat) (s : ProcessingState) :
  ticks (S n) s = tickUpdater (ticks n s).
Proof.
  revert s. induction n as [|n IH]; intros s; [done|].
  change (ticks (S (S n)) s) with (ticks (S n) (tickUpdater s)).
  rewrite IH. done.
Qed.

(** A tick leaves a state alone once its progress has reached the last
    step. *)
Lemma tickUpdater_done (s : ProcessingState) :
  (95 ≤ progress s)%Z → tickUpdater s = s.
Proof.
  intros Hle. unfold tickUpdater.
  destruct (List.find _ _) as [step|] eqn:Hfind; [|done].
  apply find_first in Hfind as (l1 & l2 & Hsteps & _ & Hlt).
  assert (step ∈ progressSteps) as Hin.
  { rewrite Hsteps. apply elem_of_app. right. by left. }
  apply progressSteps_bound in Hin. lia.
Qed.

(** C10: a tick changes at most [progress] and [currentTask]: [isLoading]
    and [error] are as before.  Hence, from the state written when a call of
    [processInterview] starts, [isLoading] is true and [error] is null after
    any series of interval callbacks. *)
Theorem tick_frames_isLoading_and_error
    (s : ProcessingState) (transcript : string) (model : option string)
    (h : Hook) (handles : list nat) :
  isLoading (tickUpdater s) = isLoading s
  ∧ error (tickUpdater s) = error s
  ∧ isLoading (processingState
       (fireAll handles (processInterview_call transcript model h))) = true
  ∧ error (processingState
       (fireAll handles (processInterview_call transcript model h))) = None.
Proof.
  split; [apply tickUpdater_isLoading|].
  split; [apply tickUpdater_error|].
  assert (isLoading (processingState (processInterview_call transcript model h))
            = true
          ∧ error (processingState (processInterview_call transcript model h))
            = None) as Hstart by done.
  revert Hstart. generalize (processInterview_call transcript model h).
  induction handles as [|handle handles IH]; intros h0 Hh0; [done|].
  simpl. apply IH. unfold intervalFires.
  destruct (decide _); [|done]. simpl.
  by rewrite tickUpdater_isLoading, tickUpdater_error.
Qed.

(** ** [reset] *)

(** C8: whatever the state before, [reset] leaves no result and the idle
    processing state. *)
Theorem reset_yields_idle (h : Hook) :
  result (reset h) = None
  ∧ processingState (reset h) =
      {| isLoading := false; progress := 0; currentTask := ""; error := None |}.
Proof. done. Qed.

(** ** [processInterview] *)

(** Interval callbacks touch the processing state only. *)
Lemma fireAll_frame (handles : list nat) (h : Hook) :
  result (fireAll handles h) = result h
  ∧ intervals (fireAll handles h) = intervals h
  ∧ nextHandle (fireAll handles h) = nextHandle h
  ∧ awaiting (fireAll handles h) = awaiting h
  ∧ consoleErrors (fireAll handles h) = consoleErrors h.
Proof.
  revert h. induction handles as [|handle handles IH]; intros h; [done|].
  simpl. destruct (IH (intervalFires handle h)) as (-> & -> & -> & -> & ->).
  unfold intervalFires. by destruct (decide _).
Qed.

(** The processing state after a series of interval callbacks is the one
    after some number of ticks. *)
Lemma fireAll_ticks (handles : list nat) (h : Hook) :
  ∃ n, (n ≤ length handles)%nat
       ∧ processingState (fireAll handles h) = ticks n (processingState h).
Proof.
  revert h. induction handles as [|handle handles IH]; intros h.
  - by exists 0%nat.
  - simpl. destruct (IH (intervalFires handle h)) as (n & Hn & ->).
    unfold intervalFires. destruct (decide _).
    + exists (S n). split; [lia|done].
    + exists n. split; [lia|done].
Qed.

Lemma processInterview_call_intervals
    (transcript : string) (model : option string) (h : Hook) :
  intervals (processInterview_call transcript model h)
  = {[nextHandle h]} ∪ intervals h.
Proof. done. Qed.

Lemma fireAll_complete (handles : list nat) (h : Hook) :
  processingState h = completeState →
  processingState (fireAll handles h) = completeState.
Proof.
  revert h. induction handles as [|handle handles IH]; intros h Hh; [done|].
  simpl. apply IH. unfold intervalFires. destruct (decide _); [|done].
  simpl. rewrite Hh. reflexivity.
Qed.

(** C3: when the API client fulfils the call, whichever interval callbacks
    ran while the call was waiting and whichever run later, the stored result
    has the response's six fields and the processing state is the complete
    one, with progress 100. *)
Theorem processInterview_fulfilled
    (transcript : string) (model : option string) (h : Hook)
    (before after : list nat) (response : InterviewSummaryResponse) :
  let k := suspendedBy transcript model h in
  let h1 := fireAll before (processInterview_call transcript model h) in
  let h2 := (processInterview_resume k (Fulfilled response) h1).1 in
  let h3 := fireAll after h2 in
  result h3 =
    Some {| summary := resp_summary response;
            highlights := resp_highlights response;
            lowlights := resp_lowlights response;
            key_named_entities := resp_key_named_entities response;
            processing_time := resp_processing_time response;
            model := resp_model response |}
  ∧ processingState h3 =
      {| isLoading := false;
         progress := 100;
         currentTask := "Complete";
         error := None |}
  ∧ (processInterview_resume k (Fulfilled response) h1).2 = Resolved.
Proof.
  intros k h1 h2 h3. split; [|split].
  - unfold h3. by destruct (fireAll_frame after h2) as (-> & _).
  - unfold h3. by apply fireAll_complete.
  - done.
Qed.

(** C2: when the API client rejects the call, the [catch] block handles the
    rejection and the promise of [processInterview] resolves: nothing is
    thrown to the caller.  The processing state it writes is not loading,
    with progress 0, an empty task label, and as error the reason's message,
    or "An unexpected error occurred" when the reason has no message or an
    empty one. *)
Theorem processInterview_rejected
    (transcript : string) (model : option string) (h : Hook)
    (before : list nat) (reason : Js.Error) :
  let k := suspendedBy transcript model h in
  let h1 := fireAll before (processInterview_call transcript model h) in
  let settled := processInterview_resume k (Rejected reason) h1 in
  settled.2 = Resolved
  ∧ processingState settled.1 =
      {| isLoading := false;
         progress := 0;
         currentTask := "";
         error := Some match Js.message reason with
                       | Some (String c m) => String c m
                       | Some EmptyString | None =>
                           "An unexpected error occurred"
                       end |}
  ∧ consoleErrors settled.1 = consoleErrors h ++ [reason].
Proof.
  intros k h1 settled. split; [done|]. split.
  - simpl. unfold failureState. do 2 f_equal.
    by destruct (Js.message reason) as [[|c m]|].
  - simpl. unfold h1.
    by destruct (fireAll_frame before
                   (processInterview_call transcript model h))
      as (_ & _ & _ & _ & ->).
Qed.

(** C1, on the code: the rejection path does not cancel the interval.  After
    the [catch] block the handle of the call is still registered, and its
    next callback rewrites the failure state: progress 10 and the first
    step's label.  On fulfilment the handle is no longer registered. *)
Theorem rejected_call_keeps_its_interval
    (transcript : string) (model : option string) (h : Hook)
    (before : list nat) (reason : Js.Error)
    (response : InterviewSummaryResponse) :
  let k := suspendedBy transcript model h in
  let h1 := fireAll before (processInterview_call transcript model h) in
  let rejected := (processInterview_resume k (Rejected reason) h1).1 in
  let fulfilled := (processInterview_resume k (Fulfilled response) h1).1 in
  progressInterval k ∈ intervals rejected
  ∧ processingState (intervalFires (progressInterval k) rejected) =
      {| isLoading := false;
         progress := 10;
         currentTask := "Validating transcript...";
         error := error (processingState rejected) |}
  ∧ progressInterval k ∉ intervals fulfilled.
Proof.
  intros k h1 rejected fulfilled.
  assert (intervals h1 = {[nextHandle h]} ∪ intervals h) as Hh1.
  { unfold h1.
    by destruct (fireAll_frame before
                   (processInterview_call transcript model h))
      as (_ & -> & _). }
  assert (progressInterval k ∈ intervals rejected) as Hin.
  { change (intervals rejected) with (intervals h1). rewrite Hh1.
    apply elem_of_union_l. by apply elem_of_singleton. }
  split; [exact Hin|]. split.
  - unfold intervalFires. destruct (decide _); [done|contradiction].
  - change (intervals fulfilled) with (intervals h1 ∖ {[progressInterval k]}).
    rewrite elem_of_difference, elem_of_singleton. by intros [_ Hne].
Qed.

(** C9, as amended: the request handed to the API client carries the given
    transcript, and as model the supplied one when it is a non-empty string,
    the default model when none is supplied or the supplied one is empty. *)
Theorem processInterview_request
    (transcript : string) (model : option string) (h : Hook) :
  awaiting (processInterview_call transcript model h) =
    awaiting h ++
      [ {| progressInterval := nextHandle h;
           request :=
             {| req_transcript := transcript;
                req_model := match model with
                             | Some (String c m) => String c m
                             | Some EmptyString | None =>
                                 "anthropic/claude-3.5-sonnet"
                             end |} |} ].
Proof. by destruct model as [[|c m]|]. Qed.

(** C9, as stated, fails when the model supplied is the empty string: the
    request carries the default model and not the supplied one. *)
Lemma processInterview_request_empty_model :
  request <$> awaiting (processInterview_call "transcript" (Some "") initialHook)
  = [ {| req_transcript := "transcript";
         req_model := "anthropic/claude-3.5-sonnet" |} ]
  ∧ request <$> awaiting (processInterview_call "transcript" (Some "") initialHook)
    ≠ [ {| req_transcript := "transcript"; req_model := "" |} ].
Proof. split; [reflexivity|discriminate]. Qed.

(** ** The validator *)

(** C4: on an empty or whitespace-only text the validator reports
    "Transcript is required"; on a text shorter than 50 characters it
    reports the too-short finding; on a text longer than 50,000 characters
    the too-long finding; on a text that is not whitespace-only and whose
    length is between 50 and 50,000 it reports nothing.  No rule hides
    another: there are as many findings as rules that apply.  The findings
    are a function of the text alone. *)
Theorem validateTranscript_rules (tooShortMessage tooLongMessage text : string) :
  let findings := validateTranscript tooShortMessage tooLongMessage text in
  (whitespaceOnly text = true →
     {| field := "transcript"; message := "Transcript is required" |}
       ∈ findings)
  ∧ ((Js.length text < 50)%Z →
       {| field := "transcript"; message := tooShortMessage |} ∈ findings)
  ∧ ((50000 < Js.length text)%Z →
       {| field := "transcript"; message := tooLongMessage |} ∈ findings)
  ∧ (whitespaceOnly text = false → (50 ≤ Js.length text ≤ 50000)%Z →
       findings = [])
  ∧ length findings =
      ((if whitespaceOnly text then 1 else 0)
       + (if (Js.length text <? 50)%Z then 1 else 0)
       + (if (50000 <? Js.length text)%Z then 1 else 0))%nat.
Proof.
  unfold validateTranscript, MIN_LENGTH, MAX_LENGTH. simpl.
  repeat split.
  - intros ->. apply elem_of_app. left. by left.
  - intros Hshort. apply Z.ltb_lt in Hshort as ->.
    apply elem_of_app. right. apply elem_of_app. left. by left.
  - intros Hlong. apply Z.ltb_lt in Hlong as ->.
    apply elem_of_app. right. apply elem_of_app. right. by left.
  - intros -> [Hmin Hmax].
    apply Z.ltb_ge in Hmin as ->. apply Z.ltb_ge in Hmax as ->. done.
  - rewrite !length_app.
    by destruct (whitespaceOnly text),
                (Js.length text <? 50)%Z, (50000 <? Js.length text)%Z.
Qed.

Lemma validateTranscript_rules_witness :
  {| field := "transcript"; message := "Transcript is required" |}
    ∈ validateTranscript "too short" "too long" "   "
  ∧ {| field := "transcript"; message := "too short" |}
    ∈ validateTranscript "too short" "too long" "   "
  ∧ {| field := "transcript"; message := "too long" |}
    ∈ validateTranscript "too short" "too long" (stringOf 50001%N "a"%char)
  ∧ validateTranscript "too short" "too long"
      "00:00:10 intro hello, thank you for joining us this morning" = [].
Proof.
  destruct (validateTranscript_rules "too short" "too long" "   ")
    as (Hrequired & Hshort & _).
  destruct (validateTranscript_rules "too short" "too long"
              (stringOf 50001%N "a"%char))
    as (_ & _ & Hlong & _).
  destruct (validateTranscript_rules "too short" "too long"
              "00:00:10 intro hello, thank you for joining us this morning")
    as (_ & _ & _ & Hvalid & _).
  split; [apply Hrequired; reflexivity|].
  split; [apply Hshort; vm_compute; reflexivity|].
  split; [apply Hlong; vm_compute; reflexivity|].
  apply Hvalid; [reflexivity|].
  unfold Js.length. simpl. lia.
Defined.

(** On the empty text two rules apply, and both findings are reported. *)
Example validateTranscript_empty (tooShortMessage tooLongMessage : string) :
  validateTranscript tooShortMessage tooLongMessage "" =
    [ {| field := "transcript"; message := "Transcript is required" |};
      {| field := "transcript"; message := tooShortMessage |} ].
Proof. reflexivity. Qed.

(** ** The debounced validation *)

(** The last element of a list that has one does not depend on the
    default. *)
Lemma last_nonempty {A} (l : list A) (x : A) (l' : list A) (d d' : A) :
  l = x :: l' → List.last l d = List.last l d'.
Proof.
  revert x l'. induction l as [|y l IH]; intros x l'; [discriminate|].
  intros _. destruct l as [|z l]; [done|].
  change (List.last (z :: l) d = List.last (z :: l) d'). by eapply IH.
Qed.

Section DebounceFacts.

Context {A S : Type} (func : A → S → S) (wait : Z).

(** While calls keep arriving within the delay of the one before, the
    wrapped function does not run and the slot holds the last call. *)
Lemma calls_rapid (cs : list (Z * A)) (t0 : Z) (a0 : A) (s : S) :
  rapid wait t0 cs →
  Debounce.calls func wait cs (Some (t0 + wait, a0)%Z, s)
  = (Some ((List.last cs (t0, a0)).1 + wait, (List.last cs (t0, a0)).2)%Z, s).
Proof.
  revert t0 a0. induction cs as [|[t a] cs IH]; intros t0 a0; [done|].
  intros [Hwindow Hrest].
  change (Debounce.calls func wait ((t, a) :: cs) (Some (t0 + wait, a0)%Z, s))
    with (Debounce.calls func wait cs
            (Debounce.call func wait t a (Some (t0 + wait, a0)%Z, s))).
  assert (Debounce.call func wait t a (Some (t0 + wait, a0)%Z, s)
          = (Some (t + wait, a)%Z, s)) as ->.
  { unfold Debounce.call, Debounce.elapse. simpl.
    destruct (Z.leb_spec (t0 + wait) t); [lia|done]. }
  rewrite (IH t a Hrest).
  destruct cs as [|c cs']; [done|].
  by rewrite (last_nonempty (c :: cs') c cs' (t, a) (t0, a0)).
Qed.

End DebounceFacts.

(** C7: of a series of calls to the debounced validation, each arriving
    less than 300 time units after the one before, none runs the validator
    while the series lasts; once 300 units have passed since the last call
    the validator has run exactly once, on the text of the last call, and
    nothing is left pending. *)
Theorem debounced_validation_runs_once
    (validate : string → list ValidationError)
    (t0 : Z) (text0 : string) (cs : list (Z * string)) (f : Form) (now : Z) :
  rapid 300 t0 cs →
  let final := List.last cs (t0, text0) in
  let st := debouncedValidateAll validate ((t0, text0) :: cs) (None, f) in
  let later := Debounce.elapse (validateCallback validate) now st in
  st.2 = f
  ∧ ((final.1 + 300 ≤ now)%Z →
       later.1 = None
       ∧ validatorRuns later.2 = validatorRuns f ++ [final.2]
       ∧ validationErrors later.2 = validate final.2
       ∧ isValidating later.2 = false)
  ∧ ((now < final.1 + 300)%Z → later = st).
Proof.
  intros Hrapid final st later.
  assert (st = (Some (final.1 + 300, final.2)%Z, f)) as Hst.
  { unfold st, final.
    change (debouncedValidateAll validate ((t0, text0) :: cs) (None, f))
      with (Debounce.calls (validateCallback validate) 300 cs
              (Some (t0 + 300, text0)%Z, f)).
    by apply calls_rapid. }
  unfold later. rewrite Hst. unfold Debounce.elapse. simpl.
  split; [done|]. split.
  - intros Hdue. destruct (Z.leb_spec (final.1 + 300) now); [done|lia].
  - intros Hearly. destruct (Z.leb_spec (final.1 + 300) now); [lia|done].
Qed.

Lemma debounced_validation_runs_once_witness :
  rapid 300 0 [(100, "ab"); (250, "abc")]%Z
  ∧ validatorRuns
      (Debounce.elapse
         (validateCallback (validateTranscript "too short" "too long")) 550
         (debouncedValidateAll (validateTranscript "too short" "too long")
            [(0, "a"); (100, "ab"); (250, "abc")]%Z
            (None, initialForm))).2
    = ["abc"]
  ∧ validatorRuns
      (Debounce.elapse
         (validateCallback (validateTranscript "too short" "too long")) 549
         (debouncedValidateAll (validateTranscript "too short" "too long")
            [(0, "a"); (100, "ab"); (250, "abc")]%Z
            (None, initialForm))).2
    = [].
Proof.
  assert (rapid 300 0 [(100, "ab"); (250, "abc")]%Z) as Hrapid.
  { simpl. lia. }
  split; [exact Hrapid|]. split.
  - destruct (debounced_validation_runs_once
                (validateTranscript "too short" "too long")
                0 "a" [(100, "ab"); (250, "abc")]%Z initialForm 550 Hrapid)
      as (_ & Hdue & _).
    apply Hdue. simpl. lia.
  - destruct (debounced_validation_runs_once
                (validateTranscript "too short" "too long")
                0 "a" [(100, "ab"); (250, "abc")]%Z initialForm 549 Hrapid)
      as (Hquiet & _ & Hearly).
    rewrite Hearly; [by rewrite Hquiet|]. simpl. lia.
Defined.

(** ** One submission at a time *)

Lemma handleSubmit_gate
    (validate : string → list ValidationError) (f : Form) :
  (handleSubmit validate true f).2 = None.
Proof.
  unfold handleSubmit. simpl.
  by destruct (length (validate _) =? 0)%nat.
Qed.

Lemma handleSubmit_calls
    (validate : string → list ValidationError) (loading : bool) (f : Form)
    (call : string * string) :
  (handleSubmit validate loading f).2 = Some call → loading = false.
Proof.
  unfold handleSubmit. simpl.
  destruct (length (validate _) =? 0)%nat, loading; simpl; congruence.
Qed.

Lemma singleFlight_idle (h : Hook) :
  singleFlight h → isLoading (processingState h) = false → awaiting h = [].
Proof. intros [_ [Hnone | Hloading]] Hidle; [done|congruence]. Qed.

Lemma handle_singleFlight
    (validate : string → list ValidationError)
    (now : Z) (ev : Home.Event) (p : Home.Page) :
  singleFlight (Home.hook p) →
  singleFlight (Home.hook (Home.handle validate now ev p)).
Proof.
  intros Hinv. destruct ev as [|value|value| | |handle|i s]; simpl.
  - destruct (handleSubmit validate _ (Home.form p)) as [f submitted] eqn:Hsub.
    destruct submitted as [[transcript model]|]; simpl; [|done].
    assert (isLoading (processingState (Home.hook p)) = false) as Hidle.
    { eapply handleSubmit_calls. by rewrite Hsub. }
    pose proof (singleFlight_idle _ Hinv Hidle) as Hnone.
    split; simpl; [|by right]. rewrite Hnone. simpl. lia.
  - by destruct (isLoading _).
  - by destruct (isLoading _).
  - by destruct (clearDisabled _ _).
  - destruct (Home.resetShown (Home.hook p)) eqn:Hshown; [|done]. simpl.
    unfold Home.resetShown in Hshown.
    apply andb_prop in Hshown as [Hidle%negb_true_iff _].
    pose proof (singleFlight_idle _ Hinv Hidle) as Hnone.
    split; simpl; [|by left]. rewrite Hnone. simpl. lia.
  - destruct Hinv as [Hlen Hload]. unfold intervalFires.
    destruct (decide _); [|done]. split; [done|]. simpl.
    by rewrite tickUpdater_isLoading.
  - destruct (awaiting (Home.hook p) !! i) as [k|] eqn:Hk; [|done]. simpl.
    destruct Hinv as [Hlen _].
    assert (delete i (awaiting (Home.hook p)) = []) as Hnone.
    { destruct (awaiting (Home.hook p)) as [|k0 [|k1 ks]];
        [done| |simpl in Hlen; lia].
      destruct i as [|i]; [done|]. by destruct i. }
    destruct s as [response|reason]; simpl; (split; [|by left]);
      simpl; rewrite Hnone; simpl; lia.
Qed.

Lemma run_singleFlight
    (validate : string → list ValidationError)
    (trace : list (Z * Home.Event)) (p : Home.Page) :
  singleFlight (Home.hook p) →
  singleFlight (Home.hook (Home.run validate trace p)).
Proof.
  revert p. induction trace as [|timed trace IH]; intros p Hinv; [done|].
  simpl. apply IH. unfold Home.step. by apply handle_singleFlight.
Qed.

(** C6: while [isLoading] is true [handleSubmit] does not call [onSubmit],
    and the submit button is disabled.  Hence, whatever happens to the page
    from its initial state, at most one call of [processInterview] waits for
    the API client, and while one waits [isLoading] is true. *)
Theorem one_submission_in_flight
    (validate : string → list ValidationError) (f : Form)
    (trace : list (Z * Home.Event)) :
  (handleSubmit validate true f).2 = None
  ∧ submitDisabled true f = true
  ∧ (length (awaiting (Home.hook (Home.run validate trace Home.initialPage)))
     ≤ 1)%nat
  ∧ (awaiting (Home.hook (Home.run validate trace Home.initialPage)) = []
     ∨ isLoading (processingState
         (Home.hook (Home.run validate trace Home.initialPage))) = true).
Proof.
  split; [apply handleSubmit_gate|]. split.
  - unfold submitDisabled. by destruct (negb _), (isValidating f).
  - apply (run_singleFlight validate trace Home.initialPage).
    split; [simpl; lia|by left].
Qed.

(** ** Progress stays a percentage *)

Lemma handle_progressInRange
    (validate : string → list ValidationError)
    (now : Z) (ev : Home.Event) (p : Home.Page) :
  progressInRange (processingState (Home.hook p)) →
  progressInRange (processingState (Home.hook (Home.handle validate now ev p))).
Proof.
  unfold progressInRange.
  intros Hinv. destruct ev as [|value|value| | |handle|i s]; simpl.
  - destruct (handleSubmit validate _ (Home.form p)) as [f submitted].
    destruct submitted as [[transcript model]|]; simpl; [lia|done].
  - by destruct (isLoading _).
  - by destruct (isLoading _).
  - by destruct (clearDisabled _ _).
  - destruct (Home.resetShown (Home.hook p)); [simpl; lia|done].
  - unfold intervalFires. destruct (decide _); [|done]. simpl.
    pose proof (tickUpdater_progress (processingState (Home.hook p))). lia.
  - destruct (awaiting (Home.hook p) !! i) as [k|]; [|done].
    destruct s as [response|reason]; simpl; lia.
Qed.

Lemma run_progressInRange
    (validate : string → list ValidationError)
    (trace : list (Z * Home.Event)) (p : Home.Page) :
  progressInRange (processingState (Home.hook p)) →
  progressInRange (processingState (Home.hook (Home.run validate trace p))).
Proof.
  revert p. induction trace as [|timed trace IH]; intros p Hinv; [done|].
  simpl. apply IH. unfold Home.step. by apply handle_progressInRange.
Qed.

(** C5: a tick moves the state to the first step of [progressSteps] whose
    threshold is strictly above the current progress, taking that step's
    progress and label, and does nothing when there is no such step.  Over
    any number of ticks progress never goes down, and from a progress of at
    most 100 it never goes above 100; whatever happens to the page from its
    initial state, progress is between 0 and 100. *)
Theorem tick_advances_to_first_step
    (s : ProcessingState) (n : nat)
    (validate : string → list ValidationError)
    (trace : list (Z * Home.Event)) :
  step_progress <$> progressSteps = [10; 25; 40; 60; 80; 95]%Z
  ∧ ((∃ before step after,
       progressSteps = before ++ step :: after
       ∧ Forall (fun earlier => (step_progress earlier ≤ progress s)%Z) before
       ∧ (progress s < step_progress step)%Z
       ∧ tickUpdater s =
           {| isLoading := isLoading s;
              progress := step_progress step;
              currentTask := task step;
              error := error s |})
      ∨ (Forall (fun step => (step_progress step ≤ progress s)%Z)
                progressSteps
         ∧ tickUpdater s = s))
  ∧ (progress (ticks n s) ≤ progress (ticks (S n) s))%Z
  ∧ ((progress s ≤ 100)%Z → (progress (ticks n s) ≤ 100)%Z)
  ∧ (0 ≤ progress (processingState
            (Home.hook (Home.run validate trace Home.initialPage))) ≤ 100)%Z.
Proof.
  split; [done|]. split; [|split; [|split]].
  - unfold tickUpdater.
    destruct (List.find _ _) as [step|] eqn:Hfind.
    + left. apply find_first in Hfind as (l1 & l2 & Hsteps & Hall & Hlt).
      exists l1, step, l2. repeat split; [done| |lia].
      eapply Forall_impl; [exact Hall|]. simpl. intros; lia.
    + right. split; [|done]. apply find_none in Hfind.
      eapply Forall_impl; [exact Hfind|]. simpl. intros; lia.
  - rewrite ticks_S. apply tickUpdater_progress.
  - intros Hle. pose proof (ticks_progress n s). lia.
  - apply (run_progressInRange validate trace Home.initialPage).
    unfold progressInRange. simpl. lia.
Qed.

Lemma tick_advances_to_first_step_witness :
  (progress (ticks 3 submittingState) ≤ 100)%Z.
Proof.
  destruct (tick_advances_to_first_step submittingState 3 (fun _ => []) [])
    as (_ & _ & _ & Hbound & _).
  apply Hbound. simpl. lia.
Defined.

(** From the state written at the start of a call, tick after tick. *)
Example ticks_from_submitting :
  (fun n => progress (ticks n submittingState)) <$> seq 0 9
  = [0; 10; 25; 40; 60; 80; 95; 95; 95]%Z.
Proof. reflexivity. Qed.

(** ** Scenarios *)

(** A valid transcript is typed and submitted, the interval fires twice,
    the client answers: the result mirrors the response and the state is the
    complete one; the interval of the call is gone. *)
Example scenario_success :
  let p := Home.run sampleValidate
             [(0, Home.ChangeTranscript sampleTranscript);
              (400, Home.SubmitForm);
              (1400, Home.IntervalFires 0);
              (2400, Home.IntervalFires 0);
              (3000, Home.ClientSettles 0 (Fulfilled sampleResponse));
              (3400, Home.IntervalFires 0)]%Z
             Home.initialPage in
  result (Home.hook p) =
    Some {| summary := "ok";
            highlights := ["a"];
            lowlights := [];
            key_named_entities := {["name" := "Jane"]};
            processing_time := None;
            model := "m" |}
  ∧ processingState (Home.hook p) =
      {| isLoading := false;
         progress := 100;
         currentTask := "Complete";
         error := None |}
  ∧ elements (intervals (Home.hook p)) = [].
Proof. vm_compute. done. Qed.

(** Submitting the empty transcript: the form shows "Transcript is
    required" and [processInterview] is not called. *)
Example scenario_empty_transcript :
  let p := Home.run sampleValidate [(0, Home.SubmitForm)]%Z
             Home.initialPage in
  validationErrors (Home.form p) =
    [ {| field := "transcript"; message := "Transcript is required" |} ]
  ∧ awaiting (Home.hook p) = []
  ∧ processingState (Home.hook p) = initialProcessingState.
Proof. vm_compute. done. Qed.

(** The client rejects with the message "rate limited". *)
Example scenario_rate_limited :
  let p := Home.run sampleValidate
             [(0, Home.ChangeTranscript sampleTranscript);
              (400, Home.SubmitForm);
              (1400, Home.IntervalFires 0);
              (1500, Home.ClientSettles 0 (Rejected rateLimited))]%Z
             Home.initialPage in
  processingState (Home.hook p) =
    {| isLoading := false;
       progress := 0;
       currentTask := "";
       error := Some "rate limited" |}
  ∧ elements (intervals (Home.hook p)) = [0%nat].
Proof. vm_compute. done. Qed.

(** The same scenario one second later: the interval of the rejected call
    fires and moves the failure state to the first step. *)
Example scenario_rate_limited_then_tick :
  let p := Home.run sampleValidate
             [(0, Home.ChangeTranscript sampleTranscript);
              (400, Home.SubmitForm);
              (1400, Home.IntervalFires 0);
              (1500, Home.ClientSettles 0 (Rejected rateLimited));
              (2400, Home.IntervalFires 0)]%Z
             Home.initialPage in
  processingState (Home.hook p) =
    {| isLoading := false;
       progress := 10;
       currentTask := "Validating transcript...";
       error := Some "rate limited" |}.
Proof. vm_compute. done. Qed.

(** A second submit while the first call is waiting is not accepted. *)
Example scenario_double_submit :
  let p := Home.run sampleValidate
             [(0, Home.ChangeTranscript sampleTranscript);
              (400, Home.SubmitForm);
              (500, Home.SubmitForm)]%Z
             Home.initialPage in
  request <$> awaiting (Home.hook p) =
    [ {| req_transcript := sampleTranscript;
         req_model := "anthropic/claude-3.5-sonnet" |} ].
Proof. vm_compute. done. Qed.

(** * Further properties *)

(** ** How the hook's slots go together *)

Lemma tickUpdater_onProgressTable (s : ProcessingState) :
  onProgressTable s → onProgressTable (tickUpdater s).
Proof.
  intros Hs. unfold tickUpdater.
  destruct (List.find _ _) as [step|] eqn:Hfind; [|done].
  apply find_first in Hfind as (l1 & l2 & Hsteps & _ & _).
  right. exists step. split; [|done].
  rewrite Hsteps. apply elem_of_app. right. by left.
Qed.

Lemma coherent_initial : Coherent initialHook.
Proof. split; simpl; try done. lia. Qed.

Lemma awaiting_single (h : Hook) (i : nat) (k : Suspended) :
  (length (awaiting h) ≤ 1)%nat → awaiting h !! i = Some k →
  awaiting h = [k] ∧ i = 0%nat.
Proof.
  destruct (awaiting h) as [|k0 [|k1 ks]]; simpl; intros Hlen Hk;
    [done| |lia].
  destruct i as [|i]; [by inversion Hk|by destruct i].
Qed.

Lemma coherent_idle (h : Hook) :
  Coherent h → isLoading (processingState h) = false → awaiting h = [].
Proof.
  intros [Hload _ _ _ _] Hidle.
  destruct (awaiting h) as [|k ks] eqn:Hk; [done|].
  assert (isLoading (processingState h) = true); [|congruence].
  by apply Hload.
Qed.

Lemma handle_coherent
    (validate : string → list ValidationError)
    (now : Z) (ev : Home.Event) (p : Home.Page) :
  Coherent (Home.hook p) →
  Coherent (Home.hook (Home.handle validate now ev p)).
Proof.
  intros Hinv. pose proof Hinv as [Hload Hone Hbusy Hres Herr].
  destruct ev as [|value|value| | |handle|i s]; simpl.
  - destruct (handleSubmit validate _ (Home.form p)) as [f submitted] eqn:Hsub.
    destruct submitted as [[transcript model]|]; simpl; [|done].
    assert (isLoading (processingState (Home.hook p)) = false) as Hidle.
    { eapply handleSubmit_calls. by rewrite Hsub. }
    pose proof (coherent_idle _ Hinv Hidle) as Hnone.
    split; simpl; rewrite ?Hnone; simpl; try done; try lia.
    intros _. repeat split. by left.
  - by destruct (isLoading _).
  - by destruct (isLoading _).
  - by destruct (clearDisabled _ _).
  - destruct (Home.resetShown (Home.hook p)) eqn:Hshown; [|done]. simpl.
    unfold Home.resetShown in Hshown.
    apply andb_prop in Hshown as [Hidle%negb_true_iff _].
    pose proof (coherent_idle _ Hinv Hidle) as Hnone.
    split; simpl; rewrite ?Hnone; simpl; try done; try lia.
  - unfold intervalFires. destruct (decide _); [|done].
    split; simpl.
    + by rewrite tickUpdater_isLoading.
    + done.
    + rewrite tickUpdater_isLoading, tickUpdater_error. intros Hbusy'.
      destruct (Hbusy Hbusy') as (? & ? & ?).
      repeat split; [done..|]. by apply tickUpdater_onProgressTable.
    + intros Hsome. by rewrite (Hres Hsome).
    + rewrite tickUpdater_error. apply Herr.
  - destruct (awaiting (Home.hook p) !! i) as [k|] eqn:Hk; [|done]. simpl.
    destruct (awaiting_single _ _ _ Hone Hk) as [Hsingle ->].
    assert (isLoading (processingState (Home.hook p)) = true) as Hbusy'.
    { apply Hload. by rewrite Hsingle. }
    destruct (Hbusy Hbusy') as (Hresult & _ & _).
    destruct s as [response|reason]; simpl.
    + split; simpl; rewrite ?Hsingle; simpl; try done; try lia.
    + split; simpl; rewrite ?Hsingle, ?Hresult; simpl; try done; try lia.
      intros e [= <-]. split; [|done].
      by destruct (Js.message reason) as [[|c m]|].
Qed.

Lemma run_coherent
    (validate : string → list ValidationError)
    (trace : list (Z * Home.Event)) (p : Home.Page) :
  Coherent (Home.hook p) →
  Coherent (Home.hook (Home.run validate trace p)).
Proof.
  revert p. induction trace as [|timed trace IH]; intros p Hinv; [done|].
  simpl. apply IH. unfold Home.step. by apply handle_coherent.
Qed.

Lemma accounted_initial : Accounted initialHook.
Proof.
  split; simpl.
  - intros handle Hin. by apply elem_of_empty in Hin.
  - intros k Hin. by apply elem_of_nil in Hin.
  - reflexivity.
Qed.

Lemma handle_accounted
    (validate : string → list ValidationError)
    (now : Z) (ev : Home.Event) (p : Home.Page) :
  Coherent (Home.hook p) →
  Accounted (Home.hook p) →
  Accounted (Home.hook (Home.handle validate now ev p)).
Proof.
  intros [_ Hone _ _ _] Hacc. pose proof Hacc as [Hfresh Hwait Hsize].
  destruct ev as [|value|value| | |handle|i s]; simpl.
  - destruct (handleSubmit validate _ (Home.form p)) as [f submitted].
    destruct submitted as [[transcript model]|]; simpl; [|done].
    assert (nextHandle (Home.hook p) ∉ intervals (Home.hook p)) as Hnew.
    { intros Hin%Hfresh. lia. }
    split; simpl.
    + intros handle [->%elem_of_singleton | Hin%Hfresh]%elem_of_union; lia.
    + intros k [Hin%Hwait | ->%list_elem_of_singleton]%elem_of_app; simpl.
      * by apply elem_of_union_r.
      * apply elem_of_union_l. by apply elem_of_singleton.
    + rewrite size_union, size_singleton, length_app, Hsize; [simpl; lia|].
      by apply disjoint_singleton_l.
  - by destruct (isLoading _).
  - by destruct (isLoading _).
  - by destruct (clearDisabled _ _).
  - by destruct (Home.resetShown (Home.hook p)).
  - unfold intervalFires. by destruct (decide _).
  - destruct (awaiting (Home.hook p) !! i) as [k|] eqn:Hk; [|done]. simpl.
    destruct (awaiting_single _ _ _ Hone Hk) as [Hsingle ->].
    assert (progressInterval k ∈ intervals (Home.hook p)) as Hin.
    { apply Hwait. rewrite Hsingle. by left. }
    rewrite Hsingle in Hsize. simpl in Hsize.
    destruct s as [response|reason]; simpl.
    + split; simpl; rewrite ?Hsingle; simpl.
      * intros handle [Hin' _]%elem_of_difference. by apply Hfresh.
      * intros k' Hk'. by apply elem_of_nil in Hk'.
      * rewrite size_difference, size_singleton, Hsize; [lia|].
        by apply singleton_subseteq_l.
    + split; simpl; rewrite ?Hsingle; simpl.
      * done.
      * intros k' Hk'. by apply elem_of_nil in Hk'.
      * rewrite length_app, Hsize. simpl. lia.
Qed.

Lemma run_accounted
    (validate : string → list ValidationError)
    (trace : list (Z * Home.Event)) (p : Home.Page) :
  Coherent (Home.hook p) →
  Accounted (Home.hook p) →
  Accounted (Home.hook (Home.run validate trace p)).
Proof.
  revert p. induction trace as [|timed trace IH]; intros p Hinv Hacc; [done|].
  simpl. apply IH; unfold Home.step.
  - by apply handle_coherent.
  - by apply handle_accounted.
Qed.

(** X1: on the page, [isLoading] is true exactly while a call of
    [processInterview] waits for the API client, and then exactly one call
    waits. *)
Theorem loading_iff_call_in_flight
    (validate : string → list ValidationError)
    (trace : list (Z * Home.Event)) :
  let h := Home.hook (Home.run validate trace Home.initialPage) in
  (isLoading (processingState h) = true ∧ length (awaiting h) = 1%nat)
  ∨ (isLoading (processingState h) = false ∧ awaiting h = []).
Proof.
  intros h.
  destruct (run_coherent validate trace Home.initialPage coherent_initial)
    as [Hload Hone _ _ _].
  fold h in Hload, Hone.
  destruct (awaiting h) as [|k ks] eqn:Hk.
  - right. split; [|done].
    destruct (isLoading (processingState h)); [|done].
    by destruct (proj1 Hload).
  - left. split; [by apply Hload|]. simpl in *. lia.
Qed.

(** X2: on the page, while [isLoading] is true there is no result and no
    error, and the progress display is at the start (progress 0 with the
    first step's label) or shows the progress and the label of one step of
    the table. *)
Theorem loading_state_on_table
    (validate : string → list ValidationError)
    (trace : list (Z * Home.Event)) :
  let h := Home.hook (Home.run validate trace Home.initialPage) in
  isLoading (processingState h) = true →
  result h = None
  ∧ error (processingState h) = None
  ∧ ((progress (processingState h) = 0%Z
      ∧ currentTask (processingState h) = "Validating transcript...")
     ∨ ∃ step, step ∈ progressSteps
               ∧ progress (processingState h) = step_progress step
               ∧ currentTask (processingState h) = task step).
Proof.
  intros h.
  by destruct (run_coherent validate trace Home.initialPage coherent_initial)
    as [_ _ Hbusy _ _].
Qed.

Lemma loading_state_on_table_witness :
  let h := Home.hook
             (Home.run sampleValidate
                [(0, Home.ChangeTranscript sampleTranscript);
                 (400, Home.SubmitForm);
                 (1400, Home.IntervalFires 0)]%Z
                Home.initialPage) in
  isLoading (processingState h) = true ∧ result h = None.
Proof.
  split; [reflexivity|].
  apply (loading_state_on_table sampleValidate
           [(0, Home.ChangeTranscript sampleTranscript);
            (400, Home.SubmitForm);
            (1400, Home.IntervalFires 0)]%Z).
  reflexivity.
Defined.

(** X3: on the page, a result is stored only together with the complete
    processing state (not loading, progress 100, no error), and an error
    only as a non-empty text, without a result and while not loading. *)
Theorem result_and_error_exclusive
    (validate : string → list ValidationError)
    (trace : list (Z * Home.Event)) :
  let h := Home.hook (Home.run validate trace Home.initialPage) in
  match result h, error (processingState h) with
  | Some _, Some _ => False
  | Some _, None =>
      processingState h =
        {| isLoading := false;
           progress := 100;
           currentTask := "Complete";
           error := None |}
  | None, Some e => e ≠ "" ∧ isLoading (processingState h) = false
  | None, None => True
  end.
Proof.
  intros h.
  destruct (run_coherent validate trace Home.initialPage coherent_initial)
    as [_ _ Hbusy Hres Herr].
  fold h in Hbusy, Hres, Herr.
  destruct (result h) as [r|] eqn:Hr.
  - rewrite (Hres (ltac:(by eexists))). done.
  - destruct (error (processingState h)) as [e|] eqn:He; [|done].
    destruct (Herr e eq_refl) as [Htruthy _]. split.
    + intros ->. discriminate Htruthy.
    + destruct (isLoading (processingState h)) eqn:Hl; [|done].
      destruct (Hbusy eq_refl) as (_ & Hnone & _). congruence.
Qed.

(** X4: on the page, the number of intervals still registered is the number
    of rejections logged so far plus the number of calls waiting: every
    rejected call leaves its interval running, and nothing else does. *)
Theorem intervals_accounted
    (validate : string → list ValidationError)
    (trace : list (Z * Home.Event)) :
  let h := Home.hook (Home.run validate trace Home.initialPage) in
  size (intervals h)
  = (length (consoleErrors h) + length (awaiting h))%nat.
Proof.
  intros h.
  by destruct (run_accounted validate trace Home.initialPage
                 coherent_initial accounted_initial)
    as [_ _ Hsize].
Qed.

(** ** What the page shows *)

(** X5: in every state of the hook the page renders exactly one of its three
    sections: the spinner, the results with the button "Process Another
    Interview", or the help; and the results section is rendered exactly
    when [ResultsDisplay] has something to show. *)
Theorem page_sections_partition (h : Hook) :
  ((spinnerShown h = true ∧ resultsShown h = false ∧ helpShown h = false)
   ∨ (spinnerShown h = false ∧ resultsShown h = true ∧ helpShown h = false)
   ∨ (spinnerShown h = false ∧ resultsShown h = false ∧ helpShown h = true))
  ∧ resultsShown h = Home.resetShown h
  ∧ resultsShown h =
      match resultsSection h with
      | Nothing => false
      | FailurePanel _ | SummaryPanel _ => true
      end.
Proof.
  unfold spinnerShown, resultsShown, helpShown, resultsSection,
    resultsDisplay, Home.resetShown, Home.errorShown.
  destruct (isLoading (processingState h)),
    (result h) as [r|], (error (processingState h)) as [[|c e]|];
    simpl; repeat split; auto.
Qed.

(** X6: on the page, [ResultsDisplay] shows what the hook holds: the
    summary of the stored result when there is one (no error hides it),
    the failure panel with the stored error when there is one. *)
Theorem results_display_shows_outcome
    (validate : string → list ValidationError)
    (trace : list (Z * Home.Event)) :
  let h := Home.hook (Home.run validate trace Home.initialPage) in
  (∀ r, result h = Some r → resultsSection h = SummaryPanel r)
  ∧ (∀ e, error (processingState h) = Some e →
          resultsSection h = FailurePanel e).
Proof.
  intros h.
  destruct (run_coherent validate trace Home.initialPage coherent_initial)
    as [_ _ Hbusy Hres Herr].
  fold h in Hbusy, Hres, Herr. unfold resultsSection, resultsDisplay.
  split.
  - intros r Hr. rewrite (Hres (ltac:(by eexists))). simpl. by rewrite Hr.
  - intros e He. destruct (Herr e He) as [Htruthy Hnone].
    destruct (isLoading (processingState h)) eqn:Hl.
    + destruct (Hbusy eq_refl) as (_ & Hno & _). congruence.
    + rewrite He. by destruct e.
Qed.

Lemma results_display_shows_outcome_witness :
  resultsSection
    (Home.hook
       (Home.run sampleValidate
          [(0, Home.ChangeTranscript sampleTranscript);
           (400, Home.SubmitForm);
           (3000, Home.ClientSettles 0 (Fulfilled sampleResponse))]%Z
          Home.initialPage))
  = SummaryPanel (toInterviewResult sampleResponse)
  ∧ resultsSection
      (Home.hook
         (Home.run sampleValidate
            [(0, Home.ChangeTranscript sampleTranscript);
             (400, Home.SubmitForm);
             (1500, Home.ClientSettles 0 (Rejected rateLimited))]%Z
            Home.initialPage))
    = FailurePanel "rate limited".
Proof.
  split.
  - apply (results_display_shows_outcome sampleValidate
             [(0, Home.ChangeTranscript sampleTranscript);
              (400, Home.SubmitForm);
              (3000, Home.ClientSettles 0 (Fulfilled sampleResponse))]%Z).
    reflexivity.
  - apply (results_display_shows_outcome sampleValidate
             [(0, Home.ChangeTranscript sampleTranscript);
              (400, Home.SubmitForm);
              (1500, Home.ClientSettles 0 (Rejected rateLimited))]%Z).
    reflexivity.
Defined.

(** X7: on the page, whenever a result or an error is stored the button
    "Process Another Interview" is there, and clicking it brings the hook
    back to the idle state with the help section shown, whatever intervals
    were left running. *)
Theorem reset_always_offered
    (validate : string → list ValidationError)
    (trace : list (Z * Home.Event)) (now : Z) :
  let p := Home.run validate trace Home.initialPage in
  let p' := Home.run validate (trace ++ [(now, Home.ClickReset)]) Home.initialPage in
  is_Some (result (Home.hook p)) ∨ is_Some (error (processingState (Home.hook p))) →
  Home.resetShown (Home.hook p) = true
  ∧ result (Home.hook p') = None
  ∧ processingState (Home.hook p') =
      {| isLoading := false; progress := 0; currentTask := ""; error := None |}
  ∧ helpShown (Home.hook p') = true.
Proof.
  intros p p' Hstored.
  destruct (run_coherent validate trace Home.initialPage coherent_initial)
    as [_ _ Hbusy Hres Herr].
  fold p in Hbusy, Hres, Herr.
  assert (Home.resetShown (Home.hook p) = true) as Hshown.
  { unfold Home.resetShown, Home.errorShown.
    destruct Hstored as [Hr | [e He]].
    - rewrite (Hres Hr). simpl. by rewrite bool_decide_eq_true_2.
    - destruct (Herr e He) as [Htruthy _]. rewrite He, Htruthy.
      destruct (isLoading (processingState (Home.hook p))) eqn:Hl.
      + destruct (Hbusy eq_refl) as (_ & Hno & _). congruence.
      + simpl. by rewrite orb_true_r. }
  split; [done|].
  unfold p', Home.run. rewrite foldl_app. simpl.
  fold (Home.run validate trace Home.initialPage). fold p.
  unfold Home.step. simpl. by rewrite Hshown.
Qed.

Lemma reset_always_offered_witness :
  helpShown
    (Home.hook
       (Home.run sampleValidate
          ([(0, Home.ChangeTranscript sampleTranscript);
            (400, Home.SubmitForm);
            (1500, Home.ClientSettles 0 (Rejected rateLimited));
            (2400, Home.IntervalFires 0)] ++ [(3000, Home.ClickReset)])%Z
          Home.initialPage)) = true.
Proof.
  apply (reset_always_offered sampleValidate
           [(0, Home.ChangeTranscript sampleTranscript);
            (400, Home.SubmitForm);
            (1500, Home.ClientSettles 0 (Rejected rateLimited));
            (2400, Home.IntervalFires 0)]%Z 3000).
  right. by eexists.
Defined.

(** X8: the width of the spinner's progress bar is always between 0 and
    100 percent, and on the page the clamping never changes anything: the
    width is the hook's progress. *)
Theorem bar_width_is_progress
    (progress0 : Z)
    (validate : string → list ValidationError)
    (trace : list (Z * Home.Event)) :
  (0 ≤ barWidth progress0 ≤ 100)%Z
  ∧ barWidth
      (progress (processingState
         (Home.hook (Home.run validate trace Home.initialPage))))
    = progress (processingState
        (Home.hook (Home.run validate trace Home.initialPage))).
Proof.
  unfold barWidth. split; [lia|].
  assert (progressInRange (processingState
            (Home.hook (Home.run validate trace Home.initialPage)))) as Hrange.
  { apply run_progressInRange. unfold progressInRange. simpl. lia. }
  unfold progressInRange in Hrange. lia.
Qed.

(** ** The simulator comes to rest *)

Lemma tickUpdater_climbs (s : ProcessingState) :
  (10 ≤ progress (tickUpdater s))%Z
  ∧ ((10 ≤ progress s)%Z → (25 ≤ progress (tickUpdater s))%Z)
  ∧ ((25 ≤ progress s)%Z → (40 ≤ progress (tickUpdater s))%Z)
  ∧ ((40 ≤ progress s)%Z → (60 ≤ progress (tickUpdater s))%Z)
  ∧ ((60 ≤ progress s)%Z → (80 ≤ progress (tickUpdater s))%Z)
  ∧ ((80 ≤ progress s)%Z → (95 ≤ progress (tickUpdater s))%Z).
Proof.
  unfold tickUpdater, progressSteps. simpl.
  repeat match goal with
         | |- context [(?a <? ?b)%Z] => destruct (Z.ltb_spec a b)
         end; simpl; lia.
Qed.

Lemma ticks_done (n : nat) (s : ProcessingState) :
  (95 ≤ progress s)%Z → ticks n s = s.
Proof.
  intros Hle. induction n as [|n IH]; [done|].
  simpl. by rewrite (tickUpdater_done s Hle).
Qed.

Lemma ticks_add (n m : nat) (s : ProcessingState) :
  ticks (n + m) s = ticks m (ticks n s).
Proof.
  revert s. induction n as [|n IH]; intros s; [done|]. simpl. apply IH.
Qed.

(** X9: from any processing state the simulator has come to rest after six
    ticks: further ticks change nothing, and the progress it rests at is at
    least 95 (exactly 95 when it started at 95 or below). *)
Theorem simulator_rests_after_six_ticks (s : ProcessingState) (n : nat) :
  ticks (6 + n) s = ticks 6 s
  ∧ tickUpdater (ticks 6 s) = ticks 6 s
  ∧ progress (ticks 6 s) = Z.max (progress s) 95.
Proof.
  assert (95 ≤ progress (ticks 6 s))%Z as Hrest.
  { simpl.
    pose proof (tickUpdater_climbs s) as (H1 & _).
    pose proof (tickUpdater_climbs (tickUpdater s)) as (_ & H2 & _).
    pose proof (tickUpdater_climbs (tickUpdater (tickUpdater s)))
      as (_ & _ & H3 & _).
    pose proof (tickUpdater_climbs (tickUpdater (tickUpdater (tickUpdater s))))
      as (_ & _ & _ & H4 & _).
    pose proof (tickUpdater_climbs
                  (tickUpdater (tickUpdater (tickUpdater (tickUpdater s)))))
      as (_ & _ & _ & _ & H5 & _).
    pose proof (tickUpdater_climbs
                  (tickUpdater
                     (tickUpdater (tickUpdater (tickUpdater (tickUpdater s))))))
      as (_ & _ & _ & _ & _ & H6).
    apply H6, H5, H4, H3, H2, H1. }
  split; [|split].
  - rewrite ticks_add. by apply ticks_done.
  - by apply tickUpdater_done.
  - pose proof (ticks_progress 6 s). lia.
Qed.

(** ** The form *)

Section FormFacts.

Variable validate : string → list ValidationError.

Lemma handleSubmit_form (loading : bool) (f : Form) :
  (handleSubmit validate loading f).1 =
    {| transcript := transcript f;
       selectedModel := selectedModel f;
       validationErrors := validate (transcript f);
       isValidating := isValidating f;
       hasInteracted := true;
       validatorRuns := validatorRuns f ++ [transcript f] |}.
Proof.
  unfold handleSubmit.
  destruct (hasInteracted f) eqn:Hf; simpl;
    destruct (length (validate (transcript f)) =? 0)%nat, loading; simpl;
    by rewrite ?Hf.
Qed.

Lemma handleSubmit_call (loading : bool) (f : Form) :
  (handleSubmit validate loading f).2 =
    match validate (transcript f), loading with
    | [], false => Some (transcript f, selectedModel f)
    | _, _ => None
    end.
Proof.
  unfold handleSubmit.
  destruct (hasInteracted f); simpl;
    by destruct (validate (transcript f)), loading.
Qed.

Lemma elapse_isValidating (now : Z) (st : Debounce.Slot * Form) :
  isValidating st.2 = false →
  isValidating (Debounce.elapse (validateCallback validate) now st).2 = false.
Proof.
  intros Hst. unfold Debounce.elapse.
  destruct st.1 as [[due text]|]; [|done].
  by destruct (due <=? now)%Z.
Qed.

Lemma afterRender_isValidating (now : Z) (old : Form)
    (st : Debounce.Slot * Form) :
  isValidating st.2 = false →
  isValidating (Home.afterRender validate now old st).2 = false.
Proof.
  intros Hst. unfold Home.afterRender. destruct (decide _); [done|].
  unfold validationEffect.
  destruct (hasInteracted st.2 && Js.truthy (transcript st.2)).
  - unfold debouncedValidate, Debounce.call. simpl.
    by apply elapse_isValidating.
  - by destruct (hasInteracted st.2 && negb (Js.truthy (transcript st.2))).
Qed.

Lemma step_isValidating (p : Home.Page) (timed : Z * Home.Event) :
  isValidating (Home.form p) = false →
  isValidating (Home.form (Home.step validate p timed)) = false.
Proof.
  intros Hp. unfold Home.step.
  pose proof (elapse_isValidating timed.1 (Home.debounceSlot p, Home.form p) Hp)
    as Hst.
  destruct (Debounce.elapse _ _ _) as [slot f]. simpl in Hst.
  destruct timed as [now ev]. simpl.
  destruct ev as [|value|value| | |handle|i s]; simpl.
  - destruct (handleSubmit validate _ f) as [f' submitted] eqn:Hsub. simpl.
    apply afterRender_isValidating. simpl.
    change f' with (f', submitted).1. rewrite <- Hsub.
    by rewrite handleSubmit_form.
  - destruct (isLoading _); [done|]. simpl.
    apply afterRender_isValidating. simpl.
    unfold handleTranscriptChange. by destruct (negb _).
  - by destruct (isLoading _).
  - destruct (clearDisabled _ _); [done|]. simpl.
    by apply afterRender_isValidating.
  - by destruct (Home.resetShown _).
  - done.
  - by destruct (awaiting _ !! i).
Qed.

(** X10: on the page [isValidating] is false whenever the page is
    rendered: the debounced callback sets it and clears it in one go.  So
    the mark "Validating..." never shows, and the submit button is disabled
    exactly when the form is not valid or the hook is loading. *)
Theorem isValidating_never_shown (trace : list (Z * Home.Event)) :
  let p := Home.run validate trace Home.initialPage in
  isValidating (Home.form p) = false
  ∧ submitDisabled (isLoading (processingState (Home.hook p))) (Home.form p)
    = negb (isFormValid (Home.form p))
      || isLoading (processingState (Home.hook p)).
Proof.
  intros p.
  assert (isValidating (Home.form p) = false) as Hp.
  { unfold p. generalize (eq_refl : isValidating (Home.form Home.initialPage) = false).
    generalize Home.initialPage.
    induction trace as [|timed trace' IH]; intros p0 Hp0; [done|].
    simpl. apply IH. by apply step_isValidating. }
  split; [done|]. unfold submitDisabled. rewrite Hp. by rewrite orb_false_r.
Qed.

(** The transcripts of the calls that wait have passed the validator. *)
Lemma step_awaiting_valid (p : Home.Page) (timed : Z * Home.Event) :
  Forall (fun k => validate (req_transcript (request k)) = [])
         (awaiting (Home.hook p)) →
  Forall (fun k => validate (req_transcript (request k)) = [])
         (awaiting (Home.hook (Home.step validate p timed))).
Proof.
  intros Hp. unfold Home.step.
  destruct (Debounce.elapse _ _ _) as [slot f].
  destruct timed as [now ev]. simpl.
  destruct ev as [|value|value| | |handle|i s]; simpl.
  - pose proof (handleSubmit_call
                  (isLoading (processingState (Home.hook p))) f) as Hcall.
    destruct (handleSubmit validate _ f) as [f' submitted]. simpl in Hcall.
    destruct submitted as [[text chosen]|]; simpl; [|done].
    apply Forall_app. split; [done|]. constructor; [|done]. simpl.
    destruct (validate (transcript f)) eqn:Hvalid; [|done].
    destruct (isLoading _); [done|]. by inversion Hcall; subst.
  - by destruct (isLoading _).
  - by destruct (isLoading _).
  - by destruct (clearDisabled _ _).
  - by destruct (Home.resetShown _).
  - unfold intervalFires. by destruct (decide _).
  - destruct (awaiting _ !! i) as [k|]; [|done]. simpl.
    assert (Forall (fun k => validate (req_transcript (request k)) = [])
              (delete i (awaiting (Home.hook p)))) as Hdel.
    { by apply Forall_delete. }
    by destruct s.
Qed.

(** X11: [handleSubmit] calls [onSubmit] exactly when the validator has no
    finding for the current transcript and [isLoading] is false, and then
    with the current transcript and the selected model; in every case it
    stores the validator's findings and marks the form as interacted with.
    On the page, therefore, every call that waits for the API client
    carries a transcript the validator accepts. *)
Theorem handleSubmit_submits_valid_only
    (loading : bool) (f : Form) (trace : list (Z * Home.Event)) :
  (handleSubmit validate loading f).2 =
    match validate (transcript f), loading with
    | [], false => Some (transcript f, selectedModel f)
    | _, _ => None
    end
  ∧ validationErrors (handleSubmit validate loading f).1
    = validate (transcript f)
  ∧ hasInteracted (handleSubmit validate loading f).1 = true
  ∧ Forall (fun k => validate (req_transcript (request k)) = [])
      (awaiting (Home.hook (Home.run validate trace Home.initialPage))).
Proof.
  split; [apply handleSubmit_call|].
  rewrite handleSubmit_form. split; [done|]. split; [done|].
  generalize (Forall_nil_2 (fun k => validate (req_transcript (request k)) = [])
              : Forall _ (awaiting (Home.hook Home.initialPage))).
  generalize Home.initialPage.
  induction trace as [|timed trace' IH]; intros p0 Hp0; [done|].
  simpl. apply IH. by apply step_awaiting_valid.
Qed.

End FormFacts.

(** ** White space *)

Lemma trimStart_head (s : string) (c : ascii) (rest : string) :
  Js.trimStart s = String c rest → Ascii.is_space c = false.
Proof.
  induction s as [|c' s IH]; simpl; [discriminate|].
  destruct (Ascii.is_space c') eqn:Hc'; [done|]. by intros [= <- _].
Qed.

Lemma trimStart_whitespaceOnly (s : string) :
  whitespaceOnly s = true ↔ Js.trimStart s = "".
Proof.
  induction s as [|c s IH]; simpl; [done|].
  destruct (Ascii.is_space c); simpl; [done|]. split; discriminate.
Qed.

Lemma whitespaceOnly_rev_app (s acc : string) :
  whitespaceOnly (String.rev_app s acc)
  = whitespaceOnly s && whitespaceOnly acc.
Proof.
  revert acc. induction s as [|c s IH]; intros acc; simpl; [done|].
  rewrite IH. simpl.
  by destruct (Ascii.is_space c), (whitespaceOnly s), (whitespaceOnly acc).
Qed.

Lemma rev_app_empty (s acc : string) :
  String.rev_app s acc = "" → s = "" ∧ acc = "".
Proof.
  revert acc. induction s as [|c s IH]; intros acc; simpl; [done|].
  intros Hrev. by destruct (IH _ Hrev) as [_ ?].
Qed.

Lemma trim_empty (s : string) :
  Js.trim s = "" ↔ whitespaceOnly s = true.
Proof.
  unfold Js.trim, String.rev. split.
  - intros [Hu _]%rev_app_empty.
    apply trimStart_whitespaceOnly in Hu.
    rewrite whitespaceOnly_rev_app, andb_true_r in Hu.
    apply trimStart_whitespaceOnly.
    destruct (Js.trimStart s) as [|c rest] eqn:Hs; [done|].
    apply trimStart_head in Hs. simpl in Hu. by rewrite Hs in Hu.
  - intros Hs%trimStart_whitespaceOnly. by rewrite Hs.
Qed.

Lemma truthy_trim (s : string) :
  Js.truthy (Js.trim s) = negb (whitespaceOnly s).
Proof.
  destruct (whitespaceOnly s) eqn:Hs.
  - apply trim_empty in Hs. by rewrite Hs.
  - destruct (Js.trim s) eqn:Ht; [|done].
    apply trim_empty in Ht. congruence.
Qed.


(** ** Validation runs late *)

Section LateValidation.

Variable validate : string → list ValidationError.

Lemma elapse_keeps_text (now : Z) (st : Debounce.Slot * Form) :
  transcript (Debounce.elapse (validateCallback validate) now st).2
    = transcript st.2
  ∧ hasInteracted (Debounce.elapse (validateCallback validate) now st).2
    = hasInteracted st.2
  ∧ selectedModel (Debounce.elapse (validateCallback validate) now st).2
    = selectedModel st.2.
Proof.
  unfold Debounce.elapse. destruct st.1 as [[due text]|]; [|done].
  by destruct (due <=? now)%Z.
Qed.

(** Typing a new, non-empty text on a page that is not loading: the text
    is stored and its validation is scheduled, 300 later. *)
Lemma change_schedules (p : Home.Page) (now : Z) (text : string) :
  isLoading (processingState (Home.hook p)) = false →
  Js.truthy text = true →
  transcript (Home.form p) ≠ text →
  let p' := Home.step validate p (now, Home.ChangeTranscript text) in
  Home.hook p' = Home.hook p
  ∧ transcript (Home.form p') = text
  ∧ hasInteracted (Home.form p') = true
  ∧ Home.debounceSlot p' = Some ((now + 300)%Z, text)
  ∧ (Home.debounceSlot p = None →
     validationErrors (Home.form p') = validationErrors (Home.form p)
     ∧ validatorRuns (Home.form p') = validatorRuns (Home.form p)
     ∧ isValidating (Home.form p') = isValidating (Home.form p)).
Proof.
  intros Hidle Htext Hnew p'. unfold p', Home.step. simpl.
  pose proof (elapse_keeps_text now (Home.debounceSlot p, Home.form p))
    as (Ht & _ & _).
  assert (Home.debounceSlot p = None →
          Debounce.elapse (validateCallback validate) now
            (Home.debounceSlot p, Home.form p)
          = (None, Home.form p)) as Hnone.
  { intros Hslot. unfold Debounce.elapse. simpl. by rewrite Hslot. }
  destruct (Debounce.elapse _ _ _) as [slot f]. simpl in Ht.
  simpl. rewrite Hidle. simpl.
  unfold Home.afterRender. simpl.
  destruct (decide _) as [[Heq _]|_].
  { exfalso. apply Hnew. rewrite <- Ht. rewrite Heq.
    unfold handleTranscriptChange. by destruct (negb _). }
  unfold validationEffect. simpl.
  assert (hasInteracted (handleTranscriptChange text f) = true) as Hint.
  { unfold handleTranscriptChange. simpl.
    by destruct (hasInteracted f) eqn:Hf. }
  assert (transcript (handleTranscriptChange text f) = text) as Htr.
  { unfold handleTranscriptChange. simpl. by destruct (negb _). }
  rewrite Hint, Htr, Htext. simpl.
  pose proof (elapse_keeps_text now (slot, handleTranscriptChange text f))
    as (Ht' & Hi' & _).
  simpl in Ht', Hi'. rewrite Ht', Hi'.
  split; [done|]. split; [exact Htr|]. split; [exact Hint|]. split; [done|].
  intros Hslot. specialize (Hnone Hslot). inversion Hnone; subst.
  unfold Debounce.elapse. simpl.
  unfold handleTranscriptChange. by destruct (negb _).
Qed.

(** X12: emptying the field does not call off a validation that is
    pending.  When a text typed at [t] is deleted again before its
    validation is due, the form shows "Transcript is required" at once, and
    when the validation falls due it runs on the deleted text and replaces
    that finding by the validator's findings for a text that is no longer
    in the field. *)
Theorem emptied_field_validated_late
    (p : Home.Page) (text : string) (t t' now : Z) :
  isLoading (processingState (Home.hook p)) = false →
  Js.truthy text = true →
  transcript (Home.form p) ≠ text →
  (t ≤ t' < t + 300)%Z →
  (t + 300 ≤ now)%Z →
  let p' :=
    Home.run validate
      [(t, Home.ChangeTranscript text); (t', Home.ChangeTranscript "")] p in
  let later :=
    Debounce.elapse (validateCallback validate) now
      (Home.debounceSlot p', Home.form p') in
  transcript (Home.form p') = ""
  ∧ validationErrors (Home.form p') =
      [ {| field := "transcript"; message := "Transcript is required" |} ]
  ∧ transcript later.2 = ""
  ∧ validationErrors later.2 = validate text.
Proof.
  intros Hidle Htext Hnew Hwindow Hdue p' later.
  destruct (change_schedules p t text Hidle Htext Hnew)
    as (Hhook & Htr & Hint & Hslot & _).
  unfold later, p', Home.run. simpl.
  destruct (Home.step validate p (t, Home.ChangeTranscript text))
    as [h1 f1 slot1]. simpl in *. subst h1 slot1.
  unfold Home.step, Debounce.elapse. simpl.
  destruct (Z.leb_spec (t + 300) t'); [lia|]. simpl.
  rewrite Hidle. simpl.
  unfold Home.afterRender. simpl.
  assert (transcript (handleTranscriptChange "" f1) = "") as Htr'.
  { unfold handleTranscriptChange. simpl. by destruct (negb _). }
  assert (hasInteracted (handleTranscriptChange "" f1) = true) as Hint'.
  { unfold handleTranscriptChange. simpl. by rewrite Hint. }
  destruct (decide _) as [[Heq _]|_].
  { exfalso. rewrite Htr', Htr in Heq. rewrite Heq in Htext. discriminate. }
  unfold validationEffect. simpl. rewrite Hint', Htr'. simpl.
  destruct (Z.leb_spec (t + 300) now); [|lia]. simpl.
  by rewrite Htr'.
Qed.


End LateValidation.

Lemma emptied_field_validated_late_witness :
  validationErrors
    (Debounce.elapse (validateCallback sampleValidate) 300
       (Home.debounceSlot
          (Home.run sampleValidate
             [(0, Home.ChangeTranscript "abc");
              (100, Home.ChangeTranscript "")]%Z Home.initialPage),
        Home.form
          (Home.run sampleValidate
             [(0, Home.ChangeTranscript "abc");
              (100, Home.ChangeTranscript "")]%Z Home.initialPage))).2
  = sampleValidate "abc".
Proof.
  apply (emptied_field_validated_late sampleValidate
           Home.initialPage "abc" 0 100 300);
    [reflexivity|reflexivity|discriminate|lia|lia].
Defined.


(** ** The statistics of the form *)

Lemma string_app_cons (x : ascii) (a b : string) :
  String x a +:+ b = String x (a +:+ b).
Proof. reflexivity. Qed.

Lemma string_app_assoc (a b c : string) : (a +:+ b) +:+ c = a +:+ (b +:+ c).
Proof.
  induction a as [|x a IH]; [done|].
  by rewrite !string_app_cons, IH.
Qed.

Lemma string_app_nil_r (a : string) : a +:+ "" = a.
Proof.
  induction a as [|x a IH]; [done|]. by rewrite string_app_cons, IH.
Qed.

Lemma rev_app_spec (s acc : string) :
  String.rev_app s acc = String.rev s +:+ acc.
Proof.
  unfold String.rev. revert acc.
  induction s as [|c s IH]; intros acc; simpl; [done|].
  rewrite (IH (String c acc)), (IH (String c "")).
  by rewrite string_app_assoc.
Qed.

Lemma rev_cons (c : ascii) (s : string) :
  String.rev (String c s) = String.rev s +:+ String c "".
Proof. unfold String.rev. simpl. by rewrite rev_app_spec. Qed.

Lemma rev_app_distr (a b : string) :
  String.rev (a +:+ b) = String.rev b +:+ String.rev a.
Proof.
  induction a as [|x a IH].
  - by rewrite string_app_nil_r.
  - by rewrite string_app_cons, !rev_cons, IH, string_app_assoc.
Qed.

Lemma rev_involutive (s : string) : String.rev (String.rev s) = s.
Proof.
  induction s as [|c s IH]; [done|].
  by rewrite rev_cons, rev_app_distr, IH.
Qed.

Lemma trimStart_split (s : string) :
  ∃ pre, whitespaceOnly pre = true ∧ s = pre +:+ Js.trimStart s.
Proof.
  induction s as [|c s (pre & Hpre & Hs)]; simpl.
  - by exists "".
  - destruct (Ascii.is_space c) eqn:Hc.
    + exists (String c pre). simpl. rewrite Hc, Hpre. split; [done|].
      by rewrite string_app_cons, <- Hs.
    + by exists "".
Qed.

(** A text is its trimmed text between two runs of white space. *)
Lemma trim_split (s : string) :
  ∃ pre post,
    whitespaceOnly pre = true ∧ whitespaceOnly post = true
    ∧ s = pre +:+ (Js.trim s +:+ post).
Proof.
  destruct (trimStart_split s) as (pre & Hpre & Hs).
  destruct (trimStart_split (String.rev (Js.trimStart s)))
    as (pre' & Hpre' & Hrev).
  exists pre, (String.rev pre'). split; [done|]. split.
  - unfold String.rev. by rewrite whitespaceOnly_rev_app, Hpre'.
  - rewrite Hs at 1. f_equal. unfold Js.trim.
    rewrite <- rev_app_distr, <- Hrev. by rewrite rev_involutive.
Qed.

Lemma trim_head (s : string) (c : ascii) (rest : string) :
  Js.trim s = String c rest → Ascii.is_space c = false.
Proof.
  unfold Js.trim. intros Ht.
  destruct (trimStart_split (String.rev (Js.trimStart s)))
    as (pre' & Hpre' & Hrev).
  assert (Js.trimStart s
          = String.rev (Js.trimStart (String.rev (Js.trimStart s)))
            +:+ String.rev pre') as Hts.
  { rewrite <- rev_app_distr, <- Hrev. by rewrite rev_involutive. }
  rewrite Ht, string_app_cons in Hts.
  by apply trimStart_head in Hts.
Qed.

Lemma endsWithSpace_app_single (prev : bool) (s : string) (c : ascii) :
  endsWithSpace prev (s +:+ String c "") = Ascii.is_space c.
Proof.
  revert prev. induction s as [|x s IH]; intros prev; [done|].
  rewrite string_app_cons. simpl. apply IH.
Qed.

Lemma trim_last (s : string) : endsWithSpace false (Js.trim s) = false.
Proof.
  unfold Js.trim.
  destruct (Js.trimStart (String.rev (Js.trimStart s))) as [|c u] eqn:Hu;
    [done|].
  apply trimStart_head in Hu.
  by rewrite rev_cons, endsWithSpace_app_single.
Qed.

Lemma splitLines_blank (s : string) :
  forallb whitespaceOnly (splitLines s) = whitespaceOnly s.
Proof.
  induction s as [|c s IH]; [done|]. simpl.
  destruct (bool_decide (c = "010"%char)) eqn:Hc.
  - apply bool_decide_eq_true in Hc as ->. simpl. exact IH.
  - destruct (splitLines s) as [|piece pieces]; simpl in *.
    + rewrite <- IH. by rewrite !andb_true_r.
    + rewrite <- IH. by rewrite andb_assoc.
Qed.

Lemma filter_length_zero {A} (f : A → bool) (l : list A) :
  length (List.filter f l) = 0%nat ↔ forallb (fun x => negb (f x)) l = true.
Proof.
  induction l as [|x l IH]; simpl; [done|].
  destruct (f x); simpl; [split; discriminate|done].
Qed.

(** X14: the statistic "Lines" is 0 exactly when the transcript consists of
    white space only (line feeds included), and it never exceeds the number
    of pieces between line feeds. *)
Theorem lineCount_zero_iff_blank (transcript : string) :
  (lineCount transcript = 0%nat ↔ whitespaceOnly transcript = true)
  ∧ (lineCount transcript ≤ length (splitLines transcript))%nat.
Proof.
  unfold lineCount. split.
  - rewrite filter_length_zero, <- splitLines_blank.
    assert (∀ l, forallb (fun line => negb (Js.truthy (Js.trim line))) l
                 = forallb whitespaceOnly l) as ->; [|done].
    intros l. induction l as [|x l IH]; simpl; [done|].
    by rewrite IH, truthy_trim, negb_involutive.
  - generalize (splitLines transcript). intros l.
    induction l as [|x l IH]; simpl; [done|].
    destruct (Js.truthy (Js.trim x)); simpl; lia.
Qed.

Lemma splitSpacesGo_length (s : string) :
  (∀ cur x,
     length (splitSpacesGo false cur s)
     = (length (String.words_go (Some x) s)
        + Nat.b2n (endsWithSpace false s))%nat)
  ∧ (∀ cur,
       length (splitSpacesGo true cur s)
       = (length (String.words_go None s)
          + Nat.b2n (endsWithSpace true s))%nat).
Proof.
  induction s as [|c s [IHword IHgap]]; [done|].
  split.
  - intros cur x. simpl. destruct (Ascii.is_space c); simpl.
    + by rewrite (IHgap "").
    + by rewrite (IHword (String c cur) (String c x)).
  - intros cur. simpl. destruct (Ascii.is_space c); simpl.
    + by rewrite (IHgap cur).
    + by rewrite (IHword (String c cur) (String c "")).
Qed.

Lemma words_go_blank (cur : option string) (post : string) :
  whitespaceOnly post = true →
  String.words_go cur post = option_list (String.rev <$> cur).
Proof.
  revert cur. induction post as [|c post IH]; intros cur; simpl; [done|].
  intros [-> Hpost]%andb_prop. rewrite (IH None Hpost). simpl.
  by rewrite app_nil_r.
Qed.

Lemma words_go_app_blank (cur : option string) (s post : string) :
  whitespaceOnly post = true →
  String.words_go cur (s +:+ post) = String.words_go cur s.
Proof.
  intros Hpost. revert cur.
  induction s as [|c s IH]; intros cur.
  - by apply words_go_blank.
  - rewrite string_app_cons. simpl.
    destruct (Ascii.is_space c); by rewrite IH.
Qed.

Lemma words_blank_app (pre s : string) :
  whitespaceOnly pre = true →
  String.words_go None (pre +:+ s) = String.words_go None s.
Proof.
  induction pre as [|c pre IH]; [done|]. simpl.
  intros [Hc Hpre]%andb_prop. rewrite Hc. simpl. by apply IH.
Qed.

Lemma words_trim (s : string) :
  String.words (Js.trim s) = String.words s.
Proof.
  destruct (trim_split s) as (pre & post & Hpre & Hpost & Hs).
  rewrite Hs at 2. unfold String.words.
  by rewrite words_blank_app, words_go_app_blank.
Qed.

(** X15: the statistic "Words" is the number of words of the transcript
    (maximal runs of characters that are not white space), except for a
    transcript of white space only, where it is 1 and not 0. *)
Theorem wordCount_counts_words (transcript : string) :
  wordCount transcript =
    if whitespaceOnly transcript then 1%nat
    else length (String.words transcript).
Proof.
  unfold wordCount, splitSpaces.
  destruct (whitespaceOnly transcript) eqn:Hblank.
  - apply trim_empty in Hblank. by rewrite Hblank.
  - rewrite <- words_trim.
    pose proof (trim_last transcript) as Hlast.
    destruct (Js.trim transcript) as [|c rest] eqn:Ht.
    { apply trim_empty in Ht. congruence. }
    pose proof (trim_head _ _ _ Ht) as Hc.
    destruct (splitSpacesGo_length rest) as [Hword _].
    simpl in *. rewrite Hc in *. simpl.
    rewrite (Hword (String c "") (String c "")), Hlast.
    unfold String.words. simpl. rewrite Hc. simpl. lia.
Qed.

Example wordCount_samples :
  wordCount "  one  two three " = 3%nat
  ∧ wordCount " " = 1%nat
  ∧ wordCount "" = 1%nat
  ∧ lineCount (String "a" (String "010" (String " " (String "010" "b"))))
    = 2%nat.
Proof. repeat split; reflexivity. Qed.

Lemma timestampAt_colon (s : string) :
  timestampAt s = true → includes ":" s = true ∧ (8 ≤ String.length s)%nat.
Proof.
  destruct s as [|d1 [|d2 [|c1 [|d3 [|d4 [|c2 [|d5 [|d6 s]]]]]]]]; simpl;
    try discriminate.
  intros Hat. split; [|lia].
  destruct (bool_decide (c1 = ":"%char)) eqn:Hc1.
  - by rewrite !orb_true_r.
  - by rewrite !andb_false_r in Hat.
Qed.

Lemma timestampCountGo_no_colon (s : string) (skip : nat) :
  includes ":" s = false → timestampCountGo skip s = 0%nat.
Proof.
  revert skip. induction s as [|c s IH]; intros skip Hno; [done|].
  pose proof Hno as Hno'. simpl in Hno'.
  apply orb_false_elim in Hno' as [_ Hrest].
  destruct skip as [|skip]; [|by apply IH].
  change (timestampCountGo 0 (String c s))
    with (if timestampAt (String c s)
          then S (timestampCountGo 7 s) else timestampCountGo 0 s).
  destruct (timestampAt (String c s)) eqn:Hat; [|by apply IH].
  apply timestampAt_colon in Hat as [Hat _]. congruence.
Qed.

Lemma timestampCountGo_length (s : string) (skip : nat) :
  (skip ≤ String.length s)%nat →
  (skip + 8 * timestampCountGo skip s ≤ String.length s)%nat.
Proof.
  revert skip. induction s as [|c s IH]; intros skip Hskip.
  - simpl in *. lia.
  - destruct skip as [|skip].
    + change (timestampCountGo 0 (String c s))
        with (if timestampAt (String c s)
              then S (timestampCountGo 7 s) else timestampCountGo 0 s).
      destruct (timestampAt (String c s)) eqn:Hat.
      * apply timestampAt_colon in Hat as [_ Hlen].
        change (String.length (String c s)) with (S (String.length s)) in *.
        assert (7 ≤ String.length s)%nat as H7 by lia.
        specialize (IH 7%nat H7). lia.
      * change (String.length (String c s)) with (S (String.length s)).
        specialize (IH 0%nat ltac:(lia)). lia.
    + change (timestampCountGo (S skip) (String c s))
        with (timestampCountGo skip s).
      change (String.length (String c s)) with (S (String.length s)) in *.
      specialize (IH skip ltac:(lia)). lia.
Qed.

(** X16: when the form shows the tip "Include timestamps" (the transcript
    is not empty and has no colon) the statistic "Timestamps" is 0; and
    every timestamp counted takes eight characters of its own, so eight
    times the count never exceeds the length. *)
Theorem tip_shown_means_no_timestamp (transcript : string) :
  (formatTipShown transcript = true → timestampCount transcript = 0%nat)
  ∧ (8 * timestampCount transcript ≤ String.length transcript)%nat.
Proof.
  split.
  - unfold formatTipShown. intros [_ Hno%negb_true_iff]%andb_prop.
    by apply timestampCountGo_no_colon.
  - pose proof (timestampCountGo_length transcript 0 ltac:(lia)).
    unfold timestampCount. lia.
Qed.

Lemma tip_shown_means_no_timestamp_witness :
  formatTipShown "hello there" = true ∧ timestampCount "hello there" = 0%nat.
Proof.
  split; [reflexivity|].
  apply (tip_shown_means_no_timestamp "hello there"). reflexivity.
Defined.

Example timestampCount_samples :
  timestampCount "00:00:10 intro 00:02:10 problem" = 2%nat
  ∧ timestampCount "12:34:56:78:90" = 1%nat
  ∧ timestampCount "1:23:45" = 0%nat
  ∧ formatTipShown "12:34" = false.
Proof. repeat split; reflexivity. Qed.

(** X17: the character count indicator reads "Too short" below 50
    characters, "Good" from 50 to 45,000, "Almost full" above 45,000 up to
    50,000 and "Too long" above 50,000; it is red exactly when it reads
    "Almost full" or "Too long", and yellow only while it still reads
    "Good", from 40,001 to 45,000 characters. *)
Theorem count_indicator_thresholds (transcript : string) :
  let n := Js.length transcript in
  (countLabel transcript = "Too short" ↔ (n < 50)%Z)
  ∧ (countLabel transcript = "Good" ↔ (50 ≤ n ≤ 45000)%Z)
  ∧ (countLabel transcript = "Almost full" ↔ (45000 < n ≤ 50000)%Z)
  ∧ (countLabel transcript = "Too long" ↔ (50000 < n)%Z)
  ∧ (countTone transcript = Red ↔
       countLabel transcript = "Almost full"
       ∨ countLabel transcript = "Too long")
  ∧ (countTone transcript = Yellow ↔ (40000 < n ≤ 45000)%Z).
Proof.
  intros n. unfold countLabel, countTone. fold n.
  destruct (Z.ltb_spec 50000 n), (Z.ltb_spec 45000 n), (Z.ltb_spec n 50),
    (Z.ltb_spec 40000 n);
    repeat split; intros; try done; try lia;
    try (by left); try (by right);
    try match goal with H : _ ∨ _ |- _ => by destruct H end.
Qed.

(** ** The mark "Copied!" *)

(** X18: after a successful copy the mark "Copied!" of its section shows
    for 2000 time units and is gone after that; a copy that fails changes
    nothing.  But the timeout of an earlier copy is not called off by a
    later one: when a second section is copied less than 2000 after a
    first, its mark goes out when the first timeout fires, early. *)
Theorem copied_mark_cleared_by_earlier_timeout
    (st : Copied) (a b : string) (t1 t2 now : Z) :
  clearTimeouts st = [] →
  (t1 ≤ t2 < t1 + 2000)%Z →
  let one := handleCopy true t1 a st in
  let two := handleCopy true t2 b (copiedAt t2 one) in
  handleCopy false t1 a st = st
  ∧ ((t1 ≤ now < t1 + 2000)%Z → copiedSection (copiedAt now one) = Some a)
  ∧ ((t1 + 2000 ≤ now)%Z → copiedSection (copiedAt now one) = None)
  ∧ ((t2 ≤ now < t1 + 2000)%Z → copiedSection (copiedAt now two) = Some b)
  ∧ ((t1 + 2000 ≤ now)%Z → copiedSection (copiedAt now two) = None).
Proof.
  intros Hnone Hwindow one two.
  assert (copiedAt t2 one = one) as Hone.
  { unfold copiedAt, one, handleCopy. rewrite Hnone. simpl.
    destruct (Z.ltb_spec t2 (t1 + 2000)); [done|lia]. }
  unfold two. rewrite Hone. unfold copiedAt, one, handleCopy.
  rewrite Hnone. simpl.
  split; [done|].
  repeat split; intros Hnow;
    destruct (Z.ltb_spec now (t1 + 2000)), (Z.ltb_spec now (t2 + 2000));
    simpl; try done; lia.
Qed.

Lemma copied_mark_cleared_by_earlier_timeout_witness :
  copiedSection
    (copiedAt 2000
       (handleCopy true 1500 "highlights"
          (copiedAt 1500
             (handleCopy true 0 "summary"
                {| copiedSection := None; clearTimeouts := [] |}))))
  = None.
Proof.
  apply (copied_mark_cleared_by_earlier_timeout
           {| copiedSection := None; clearTimeouts := [] |}
           "summary" "highlights" 0 1500 2000);
    [reflexivity|lia|lia].
Defined.

(** ** Clearing the form, and the models it offers *)

(** X19: the Clear button, on a page that is not loading and whose field is
    not empty, empties the field and the findings and takes back the mark
    of interaction, so that no "Transcript is required" is shown (as it is
    when the text is deleted by hand); both buttons are disabled
    afterwards.  A validation that is pending stays pending. *)
Theorem clear_shows_no_error
    (validate : string → list ValidationError)
    (p : Home.Page) (now : Z) :
  isLoading (processingState (Home.hook p)) = false →
  transcript (Home.form p) ≠ "" →
  let before :=
    Debounce.elapse (validateCallback validate) now
      (Home.debounceSlot p, Home.form p) in
  let p' := Home.step validate p (now, Home.ClickClear) in
  transcript (Home.form p') = ""
  ∧ validationErrors (Home.form p') = []
  ∧ showValidationErrors (Home.form p') = false
  ∧ submitDisabled false (Home.form p') = true
  ∧ clearDisabled false (Home.form p') = true
  ∧ Home.debounceSlot p' = before.1
  ∧ Home.hook p' = Home.hook p.
Proof.
  intros Hidle Hfilled. cbv zeta. unfold Home.step. cbn [fst snd].
  pose proof (elapse_keeps_text validate now
                (Home.debounceSlot p, Home.form p)) as (Ht & _ & _).
  destruct (Debounce.elapse _ _ _) as [slot f]. cbn [fst snd] in *.
  unfold Home.handle. cbn [Home.hook Home.form Home.debounceSlot].
  rewrite Hidle.
  assert (clearDisabled false f = false) as ->.
  { unfold clearDisabled, Js.length. simpl. rewrite Ht.
    destruct (transcript (Home.form p)); [done|]. simpl. lia. }
  unfold Home.afterRender. cbn [fst snd].
  destruct (decide _) as [[Heq _]|_].
  { simpl in Heq. congruence. }
  unfold validationEffect. simpl. done.
Qed.

Lemma clear_shows_no_error_witness :
  validationErrors
    (Home.form
       (Home.step sampleValidate
          (Home.run sampleValidate [(0%Z, Home.ChangeTranscript "abc")]
             Home.initialPage)
          (400%Z, Home.ClickClear)))
  = [].
Proof.
  apply (clear_shows_no_error sampleValidate
           (Home.run sampleValidate [(0%Z, Home.ChangeTranscript "abc")]
              Home.initialPage) 400);
    [reflexivity|discriminate].
Defined.

(** X20: for each of the three models the form offers, the request built
    by [processInterview] carries exactly that model (none of them is
    empty, so the default never replaces a choice), and the model the form
    selects at the start is the hook's default model. *)
Theorem offered_models_are_sent (transcript0 : string) :
  Forall (fun offered =>
            req_model (buildRequest transcript0 (Some offered.1)) = offered.1)
         MODELS
  ∧ head MODELS.*1 = Some (selectedModel initialForm)
  ∧ req_model (buildRequest transcript0 None) = selectedModel initialForm.
Proof. repeat split. by repeat constructor. Qed.
